(** * who_is_logging_things: the logging inspector, embedded and verified

    The tool reads the state of Python's [logging] subsystem (root logger,
    registry of named loggers, handlers, formatters, filters) and prints
    reports.  The embedding has three layers:

    - [py]: the Python values the tool observes, with the builtins it
      applies to them ([getattr], [hasattr], [isinstance], [str], ...);
    - [logging]: the part of the logging subsystem the tool reads;
    - the tool's own functions, one definition per function of
      [who_is_logging_things.py], under the source's names.

    Code that can raise returns an [outcome]; code that prints runs in the
    writer monad [io], whose log is the sequence of [print] calls. *)

From stdpp Require Import gmap strings list pretty sorting.
From Stdlib Require Import ZArith Lia Permutation.

#[local] Set Warnings "-register-all".
#[local] Open Scope Z_scope.

(** ** Exceptions and results *)

Inductive exn :=
| AttributeError (attr : string)
| KeyError (key : string)
| IndexError
| TypeError (what : string).

(** [OutOfFuel] is not an exception: it marks a loop or recursion that did
    not finish within the fuel it was given. *)
Inductive outcome (A : Type) :=
| Ret (a : A)
| Raise (e : exn)
| OutOfFuel.
Arguments Ret {A} a.
Arguments Raise {A} e.
Arguments OutOfFuel {A}.

#[global] Instance outcome_ret : MRet outcome := λ A a, Ret a.
#[global] Instance outcome_bind : MBind outcome := λ A B f m,
  match m with
  | Ret a => f a
  | Raise e => Raise e
  | OutOfFuel => OutOfFuel
  end.
#[global] Instance outcome_fmap : FMap outcome := λ A B f m,
  match m with
  | Ret a => Ret (f a)
  | Raise e => Raise e
  | OutOfFuel => OutOfFuel
  end.

(** [[f(x) for x in xs]] where [f] may raise: stops at the first failure. *)
Fixpoint map_outcome {A B} (f : A → outcome B) (xs : list A) : outcome (list B) :=
  match xs with
  | [] => Ret []
  | x :: xs' => y ← f x; ys ← map_outcome f xs'; Ret (y :: ys)
  end.

(** The writer monad of [print]: what was printed so far, and how the
    computation ended.  Output printed before an exception stays printed. *)
Record io (A : Type) := IO { printed : list string; result : outcome A }.
Arguments IO {A} printed result.
Arguments printed {A} _.
Arguments result {A} _.

#[global] Instance io_ret : MRet io := λ A a, IO [] (Ret a).
#[global] Instance io_bind : MBind io := λ A B f m,
  match result m with
  | Ret a => let rest := f a in IO (printed m ++ printed rest) (result rest)
  | Raise e => IO (printed m) (Raise e)
  | OutOfFuel => IO (printed m) OutOfFuel
  end.

Definition print (line : string) : io unit := IO [line] (Ret tt).
Definition lift {A} (m : outcome A) : io A := IO [] m.

(** [for x in xs: body(x)] *)
Fixpoint for_each {A} (xs : list A) (body : A → io unit) : io unit :=
  match xs with
  | [] => mret tt
  | x :: xs' => body x ;; for_each xs' body
  end.

(** [enumerate(xs, start)] *)
Fixpoint enumerate {A} (xs : list A) (start : Z) : list (Z * A) :=
  match xs with
  | [] => []
  | x :: xs' => (start, x) :: enumerate xs' (start + 1)
  end.

(** [xs[i]]: a negative index counts from the end. *)
Definition index {A} (xs : list A) (i : Z) : outcome A :=
  let n := Z.of_nat (length xs) in
  let j := if i <? 0 then n + i else i in
  if j <? 0 then Raise IndexError
  else match xs !! Z.to_nat j with
       | Some x => Ret x
       | None => Raise IndexError
       end.

(** [s * n] on strings and [sep.join(parts)]. *)
Fixpoint str_repeat (s : string) (n : nat) : string :=
  match n with
  | O => ""
  | S n' => s +:+ str_repeat s n'
  end.

Fixpoint join (sep : string) (parts : list string) : string :=
  match parts with
  | [] => ""
  | [p] => p
  | p :: rest => p +:+ sep +:+ join sep rest
  end.

(** [sorted(xs)] and [xs.sort()], which compare with [<] only and are
    stable: an element is moved in front of the first later element that is
    not smaller than it. *)
Section py_sorted.
Context {A : Type} (lt : A → A → bool).

Fixpoint sorted_insert (x : A) (l : list A) : list A :=
  match l with
  | [] => [x]
  | y :: l' => if lt y x then y :: sorted_insert x l' else x :: y :: l'
  end.

Definition sorted (l : list A) : list A := foldr sorted_insert [] l.
End py_sorted.

(** Comparison through a string key, as in [xs.sort(key=...)]: [key_lt] is
    the [<] that the sort applies; [key_le] and [key_lt_strict] state the
    order of a result.  Strings are compared as Python compares them,
    lexicographically, character by character. *)
Section key_order.
Context {A : Type} (key : A → string).

Definition key_lt (x y : A) : bool := String.ltb (key x) (key y).
Definition key_le (x y : A) : Prop := String.leb (key x) (key y) = true.
Definition key_lt_strict (x y : A) : Prop := String.ltb (key x) (key y) = true.
End key_order.

(** ** Python values *)

Module py.

Record pyclass := PyClass { cls_module : string; cls_name : string }.

#[global] Instance pyclass_eq_dec : EqDecision pyclass.
Proof. solve_decision. Defined.

(** An object as the tool can observe it: identity, type and the rest of its
    method resolution order, truth value, [str()] rendering, the attributes
    that attribute lookup resolves, and the items [iter()] yields ([None]
    when the object is not iterable). *)
Record object (V : Type) := Object {
  o_id : Z;
  o_type : pyclass;
  o_bases : list pyclass;
  o_truth : bool;
  o_str : string;
  o_attrs : gmap string V;
  o_items : option (list V)
}.
Arguments Object {V}.
Arguments o_id {V}.
Arguments o_type {V}.
Arguments o_bases {V}.
Arguments o_truth {V}.
Arguments o_str {V}.
Arguments o_attrs {V}.
Arguments o_items {V}.

Inductive value :=
| VNone
| VBool (b : bool)
| VInt (z : Z)
| VStr (s : string)
| VObj (o : object value).

(** Data the tool builds itself: values read from the subsystem at the
    leaves, under the lists and dicts the tool constructs. *)
Inductive data :=
| Val (v : value)
| List (l : list data)
| Dict (d : gmap string data).

Definition Str (s : string) : data := Val (VStr s).
Definition None_ : data := Val VNone.

(** [bool(v)] *)
Definition truthy (v : value) : bool :=
  match v with
  | VNone => false
  | VBool b => b
  | VInt z => negb (z =? 0)
  | VStr s => negb (String.eqb s "")
  | VObj o => o_truth o
  end.

(** [str(v)], which is also what an f-string field prints. *)
Definition str (v : value) : string :=
  match v with
  | VNone => "None"
  | VBool true => "True"
  | VBool false => "False"
  | VInt z => pretty z
  | VStr s => s
  | VObj o => o_str o
  end.

(** [type(v).__name__] *)
Definition type_name (v : value) : string :=
  match v with
  | VNone => "NoneType"
  | VBool _ => "bool"
  | VInt _ => "int"
  | VStr _ => "str"
  | VObj o => cls_name (o_type o)
  end.

(** Attribute lookup.  None of the attributes the tool reads exists on
    [None], a bool, an int or a str. *)
Definition lookup_attr (v : value) (name : string) : option value :=
  match v with
  | VObj o => o_attrs o !! name
  | _ => None
  end.

(** [v.name] *)
Definition attr (v : value) (name : string) : outcome value :=
  match lookup_attr v name with
  | Some x => Ret x
  | None => Raise (AttributeError name)
  end.

(** [getattr(v, name, default)] *)
Definition getattr (v : value) (name : string) (default : value) : value :=
  match lookup_attr v name with
  | Some x => x
  | None => default
  end.

(** [hasattr(v, name)] *)
Definition hasattr (v : value) (name : string) : bool :=
  bool_decide (is_Some (lookup_attr v name)).

(** [isinstance(v, C)] for a class [C] of the logging subsystem. *)
Definition isinstance (v : value) (C : pyclass) : bool :=
  match v with
  | VObj o => bool_decide (C ∈ o_type o :: o_bases o)
  | _ => false
  end.

(** [iter(v)]: a str yields its characters. *)
Fixpoint chars (s : string) : list value :=
  match s with
  | EmptyString => []
  | String c s' => VStr (String c EmptyString) :: chars s'
  end.

Definition iter (v : value) : outcome (list value) :=
  match v with
  | VStr s => Ret (chars s)
  | VObj o =>
      match o_items o with
      | Some l => Ret l
      | None => Raise (TypeError "object is not iterable")
      end
  | _ => Raise (TypeError "object is not iterable")
  end.

(** [id(v)]: the identity token of an object.  The tokens of [None], bools,
    ints and strs are not modelled. *)
Definition id (v : value) : Z :=
  match v with
  | VObj o => o_id o
  | _ => 0
  end.

(** Python's rendering of the lists and dicts the tool builds (their
    [repr]) is left abstract: everything holds for any rendering. *)
Class ContainerStr := container_str : data → string.

(** An f-string field [{d}]. *)
Definition format `{ContainerStr} (d : data) : string :=
  match d with
  | Val v => str v
  | _ => container_str d
  end.

(** [bool(d)] *)
Definition truthy_data (d : data) : bool :=
  match d with
  | Val v => truthy v
  | List l => bool_decide (l ≠ [])
  | Dict m => bool_decide (m ≠ ∅)
  end.

(** [d[key]] on a dict, and [key in d]. *)
Definition item (d : gmap string data) (key : string) : outcome data :=
  match d !! key with
  | Some x => Ret x
  | None => Raise (KeyError key)
  end.

Definition contains (d : gmap string data) (key : string) : bool :=
  bool_decide (is_Some (d !! key)).

(** [d[key]] where [d] is not known to be a dict. *)
Definition getitem (d : data) (key : string) : outcome data :=
  match d with
  | Dict m => item m key
  | _ => Raise (TypeError "indices must be integers")
  end.

(** [iter(d)] and [len(d)] *)
Definition iter_data (d : data) : outcome (list data) :=
  match d with
  | Val v => l ← iter v; Ret (map Val l)
  | List l => Ret l
  | Dict m => Ret (map (λ kv, Str kv.1) (map_to_list m))
  end.

Definition len (d : data) : outcome Z :=
  match d with
  | Val (VStr s) => Ret (Z.of_nat (String.length s))
  | Val (VObj o) =>
      match o_items o with
      | Some l => Ret (Z.of_nat (length l))
      | None => Raise (TypeError "object has no len()")
      end
  | Val _ => Raise (TypeError "object has no len()")
  | List l => Ret (Z.of_nat (length l))
  | Dict m => Ret (Z.of_nat (size m))
  end.

(** [sep.join(d)]: every item must be a str. *)
Definition as_str (d : data) : outcome string :=
  match d with
  | Val (VStr s) => Ret s
  | _ => Raise (TypeError "sequence item: expected str instance")
  end.

(** A parameter annotated [Dict[str, Any]]: subscripting anything else
    with a str key raises [TypeError]. *)
Definition as_dict (d : data) : outcome (gmap string data) :=
  match d with
  | Dict m => Ret m
  | _ => Raise (TypeError "indices must be integers")
  end.

Definition join_data (sep : string) (d : data) : outcome string :=
  items ← iter_data d;
  parts ← map_outcome as_str items;
  Ret (join sep parts).

End py.

(** ** The logging subsystem, as far as the tool reads it *)

Module logging.
Import py.

(** Classes of [logging] and [logging.handlers]. *)
Definition object_ := PyClass "builtins" "object".
Definition Filterer := PyClass "logging" "Filterer".
Definition Handler := PyClass "logging" "Handler".
Definition StreamHandler := PyClass "logging" "StreamHandler".
Definition FileHandler := PyClass "logging" "FileHandler".
Definition BaseRotatingHandler := PyClass "logging.handlers" "BaseRotatingHandler".
Definition RotatingFileHandler := PyClass "logging.handlers" "RotatingFileHandler".
Definition TimedRotatingFileHandler :=
  PyClass "logging.handlers" "TimedRotatingFileHandler".

Definition CRITICAL : Z := 50.
Definition ERROR : Z := 40.
Definition WARNING : Z := 30.
Definition INFO : Z := 20.
Definition DEBUG : Z := 10.
Definition NOTSET : Z := 0.

(** The stock level tables [_levelToName] and [_nameToLevel]. *)
Definition levelToName (z : Z) : option string :=
  if z =? CRITICAL then Some "CRITICAL"
  else if z =? ERROR then Some "ERROR"
  else if z =? WARNING then Some "WARNING"
  else if z =? INFO then Some "INFO"
  else if z =? DEBUG then Some "DEBUG"
  else if z =? NOTSET then Some "NOTSET"
  else None.

Definition nameToLevel (s : string) : option Z :=
  if String.eqb s "CRITICAL" then Some CRITICAL
  else if String.eqb s "FATAL" then Some CRITICAL
  else if String.eqb s "ERROR" then Some ERROR
  else if String.eqb s "WARN" then Some WARNING
  else if String.eqb s "WARNING" then Some WARNING
  else if String.eqb s "INFO" then Some INFO
  else if String.eqb s "DEBUG" then Some DEBUG
  else if String.eqb s "NOTSET" then Some NOTSET
  else None.

(** [logging.getLevelName(level)]: the name of a numeric level, the number
    of a level name, and ["Level %s" % level] for anything else.  A bool
    is looked up as the int it equals. *)
Definition getLevelName (level : value) : value :=
  let unknown := VStr ("Level " +:+ str level) in
  match level with
  | VInt z => from_option VStr unknown (levelToName z)
  | VBool b => from_option VStr unknown (levelToName (if b then 1 else 0))
  | VStr s => from_option VInt unknown (nameToLevel s)
  | _ => unknown
  end.

(** Loggers live in a store and are referred to by reference: two
    references are the same logger exactly when they are equal. *)
Definition ref := nat.

Record Logger := {
  name : string;
  level : Z;
  parent : option ref;
  propagate : bool;
  disabled : bool;
  handlers : list value;
  filters : list value
}.

(** What [Logger.manager.loggerDict] holds under a name. *)
Inductive registered :=
| PlaceHolder
| ALogger (l : ref).

(** The state the tool reads.  [loggerDict] is a dict: its items in
    insertion order, which is the order its iteration follows.
    [module_classes] are the classes bound as attributes of the [logging]
    module besides the stock ones ([FileHandler], [StreamHandler], ...),
    as [hasattr(logging, name)] sees them. *)
Record state := {
  store : ref → Logger;
  root : ref;
  loggerDict : list (string * registered);
  module_classes : gmap string pyclass;
  lastResort : value;
  captureWarnings_defaults : value;
  file : string;
  sys_version : string
}.

(** [logger.getEffectiveLevel()]:
    walk up the parent links until a logger with a level set is found. *)
Fixpoint getEffectiveLevel (fuel : nat) (σ : state) (logger : option ref) : outcome Z :=
  match logger with
  | None => Ret NOTSET
  | Some l =>
      match fuel with
      | O => OutOfFuel
      | S fuel' =>
          if negb (level (store σ l) =? 0) then Ret (level (store σ l))
          else getEffectiveLevel fuel' σ (parent (store σ l))
      end
  end.

End logging.

(** ** The tool: who_is_logging_things.py *)

Import py.

Definition NA : value := VStr "N/A".

(** [hasattr(logging, name) and isinstance(handler, logging.<name>)] *)
Definition module_isinstance (σ : logging.state) (name : string) (handler : value) : bool :=
  match logging.module_classes σ !! name with
  | Some C => isinstance handler C
  | None => false
  end.

(** [[type(f).__name__ for f in fs]] *)
Definition type_names (fs : list value) : data :=
  List (map (λ f, Str (type_name f)) fs).

(** Extract detailed information about a logging handler. *)
Definition get_handler_info (σ : logging.state) (handler : value)
  : outcome (gmap string data) :=
  level ← attr handler "level";
  let info : gmap string data :=
    <["level_num" := Val level]>
      (<["level" := Val (logging.getLevelName level)]>
         (<["type" := Str (type_name handler)]> ∅)) in
  (* Get formatter info *)
  fmt ← attr handler "formatter";
  let info :=
    if truthy fmt then
      <["formatter" := Dict
          (<["style" := Val (getattr fmt "_style" NA)]>
             (<["datefmt" := Val (getattr fmt "datefmt" NA)]>
                (<["format" := Val (getattr fmt "_fmt" NA)]> ∅)))]> info
    else <["formatter" := None_]> info in
  (* Handler-specific attributes *)
  info ←
    (if isinstance handler logging.FileHandler then
       Ret (<["encoding" := Val (getattr handler "encoding" NA)]>
              (<["mode" := Val (getattr handler "mode" NA)]>
                 (<["filename" := Val (getattr handler "baseFilename" NA)]> info)))
     else if isinstance handler logging.StreamHandler then
       let stream := getattr handler "stream" VNone in
       if truthy stream then
         if hasattr stream "name" then
           name ← attr stream "name"; Ret (<["stream" := Val name]> info)
         else Ret (<["stream" := Str (str stream)]> info)
       else Ret (<["stream" := Val NA]> info)
     else if module_isinstance σ "RotatingFileHandler" handler then
       Ret (<["backupCount" := Val (getattr handler "backupCount" NA)]>
              (<["maxBytes" := Val (getattr handler "maxBytes" NA)]>
                 (<["filename" := Val (getattr handler "baseFilename" NA)]> info)))
     else if module_isinstance σ "TimedRotatingFileHandler" handler then
       Ret (<["backupCount" := Val (getattr handler "backupCount" NA)]>
              (<["interval" := Val (getattr handler "interval" NA)]>
                 (<["when" := Val (getattr handler "when" NA)]>
                    (<["filename" := Val (getattr handler "baseFilename" NA)]> info))))
     else Ret info);
  (* Filters *)
  filters ←
    (if hasattr handler "filters" && truthy (getattr handler "filters" VNone) then
       fs ← iter (getattr handler "filters" VNone); Ret (type_names fs)
     else Ret (List []));
  Ret (<["filters" := filters]> info).

(** Extract detailed information about a logger. *)
Definition get_logger_info (fuel : nat) (σ : logging.state) (logger : logging.ref)
  : outcome (gmap string data) :=
  let lg := logging.store σ logger in
  effective ← logging.getEffectiveLevel fuel σ (Some logger);
  handlers ← map_outcome (get_handler_info σ) (logging.handlers lg);
  Ret (<["parent" :=
          match logging.parent lg with
          | Some p => Str (logging.name (logging.store σ p))
          | None => None_
          end]>
      (<["filters" :=
          match logging.filters lg with
          | [] => List []
          | fs => type_names fs
          end]>
      (<["handlers" := List (map Dict handlers)]>
      (<["disabled" := Val (VBool (logging.disabled lg))]>
      (<["propagate" := Val (VBool (logging.propagate lg))]>
      (<["effective_level_num" := Val (VInt effective)]>
      (<["effective_level" := Val (logging.getLevelName (VInt effective))]>
      (<["level_num" := Val (VInt (logging.level lg))]>
      (<["level" := Val (logging.getLevelName (VInt (logging.level lg)))]>
      (<["name" := Str (logging.name lg)]> ∅)))))))))).

Section reports.
Context `{ContainerStr}.

(** [if key in handler_info: print(f"{indent}<label>{handler_info[key]}")] *)
Definition print_field (handler_info : gmap string data) (indent key label : string)
  : io unit :=
  if contains handler_info key then
    v ← lift (item handler_info key); print (indent +:+ label +:+ format v)
  else mret tt.

(** Print detailed handler information. *)
Definition print_handler_details (handler_info : data) (indent : string) : io unit :=
  handler_info ← lift (as_dict handler_info);
  ty ← lift (item handler_info "type");
  print (indent +:+ "Type: " +:+ format ty);;
  level ← lift (item handler_info "level");
  level_num ← lift (item handler_info "level_num");
  print (indent +:+ "Level: " +:+ format level +:+ " (" +:+ format level_num +:+ ")");;
  (* Handler-specific info *)
  print_field handler_info indent "filename" "File: ";;
  print_field handler_info indent "stream" "Stream: ";;
  print_field handler_info indent "mode" "Mode: ";;
  print_field handler_info indent "encoding" "Encoding: ";;
  print_field handler_info indent "maxBytes" "Max Bytes: ";;
  print_field handler_info indent "backupCount" "Backup Count: ";;
  print_field handler_info indent "when" "When: ";;
  print_field handler_info indent "interval" "Interval: ";;
  (* Formatter info *)
  fmt ← lift (item handler_info "formatter");
  (if truthy_data fmt then
     print (indent +:+ "Formatter:");;
     f ← lift (getitem fmt "format");
     print (indent +:+ "  Format: " +:+ format f);;
     d ← lift (getitem fmt "datefmt");
     print (indent +:+ "  Date Format: " +:+ format d);;
     s ← lift (getitem fmt "style");
     print (indent +:+ "  Style: " +:+ format s)
   else print (indent +:+ "Formatter: None"));;
  (* Filters *)
  filters ← lift (item handler_info "filters");
  if truthy_data filters then
    names ← lift (join_data ", " filters);
    print (indent +:+ "Filters: " +:+ names)
  else print (indent +:+ "Filters: None").

(** Display root logger information with handler source. *)
Definition show_root_logger (fuel : nat) (σ : logging.state) : io unit :=
  print "🌟 ROOT LOGGER";;
  print (str_repeat "=" 50);;
  let root_logger := logging.root σ in
  root_info ← lift (get_logger_info fuel σ root_logger);
  level ← lift (item root_info "level");
  level_num ← lift (item root_info "level_num");
  print ("Level: " +:+ format level +:+ " (" +:+ format level_num +:+ ")");;
  effective_level ← lift (item root_info "effective_level");
  effective_level_num ← lift (item root_info "effective_level_num");
  print ("Effective Level: " +:+ format effective_level
           +:+ " (" +:+ format effective_level_num +:+ ")");;
  disabled ← lift (item root_info "disabled");
  print ("Disabled: " +:+ format disabled);;
  handlers ← lift (item root_info "handlers");
  n ← lift (len handlers);
  print ("Handlers: " +:+ pretty n);;
  filters ← lift (item root_info "filters");
  (if truthy_data filters then
     names ← lift (join_data ", " filters); print ("Filters: " +:+ names)
   else print "Filters: None");;
  print "";;
  (* Show handlers with source information *)
  if truthy_data handlers then
    print "📋 ROOT LOGGER HANDLERS";;
    print (str_repeat "-" 30);;
    items ← lift (iter_data handlers);
    for_each (enumerate items 1) (λ '(i, handler_info),
      print ("Handler " +:+ pretty i +:+ ":");;
      print_handler_details handler_info "    ";;
      (* Try to find where this handler was added *)
      handler ← lift (index (logging.handlers (logging.store σ root_logger)) (i - 1));
      print ("    Handler ID: " +:+ pretty (id handler));;
      (if hasattr handler "__module__" then
         m ← lift (attr handler "__module__"); print ("    Module: " +:+ str m)
       else mret tt);;
      print "")
  else
    print "📋 ROOT LOGGER HANDLERS: None";;
    print "".

(** [sorted(logger_dict.items())]: the keys of a dict are distinct, so
    comparing two items is comparing their names. *)
Definition sorted_items {V} (items : list (string * V)) : list (string * V) :=
  sorted (key_lt fst) items.

(** The body of the all-loggers loop for an entry that is a [Logger]. *)
Definition show_logger_entry (fuel : nat) (σ : logging.state)
    (name : string) (logger_obj : logging.ref) : io unit :=
  logger_info ← lift (get_logger_info fuel σ logger_obj);
  print ("📖 " +:+ name);;
  level ← lift (item logger_info "level");
  level_num ← lift (item logger_info "level_num");
  print ("  Level: " +:+ format level +:+ " (" +:+ format level_num +:+ ")");;
  effective_level ← lift (item logger_info "effective_level");
  effective_level_num ← lift (item logger_info "effective_level_num");
  print ("  Effective Level: " +:+ format effective_level
           +:+ " (" +:+ format effective_level_num +:+ ")");;
  propagate ← lift (item logger_info "propagate");
  print ("  Propagate: " +:+ format propagate);;
  disabled ← lift (item logger_info "disabled");
  print ("  Disabled: " +:+ format disabled);;
  parent ← lift (item logger_info "parent");
  print ("  Parent: " +:+ format (if truthy_data parent then parent else Str "root"));;
  handlers ← lift (item logger_info "handlers");
  n ← lift (len handlers);
  print ("  Handlers: " +:+ pretty n);;
  filters ← lift (item logger_info "filters");
  (if truthy_data filters then
     names ← lift (join_data ", " filters); print ("  Filters: " +:+ names)
   else mret tt);;
  (* Show handlers if any *)
  (if truthy_data handlers then
     items ← lift (iter_data handlers);
     for_each (enumerate items 1) (λ '(i, handler_info),
       ty ← lift (getitem handler_info "type");
       lv ← lift (getitem handler_info "level");
       print ("    Handler " +:+ pretty i +:+ ": " +:+ format ty
                +:+ " (Level: " +:+ format lv +:+ ")"))
   else mret tt);;
  print "".

(** Display all configured loggers. *)
Definition show_all_loggers (fuel : nat) (σ : logging.state) : io unit :=
  print "📚 ALL LOGGERS";;
  print (str_repeat "=" 50);;
  (* Get all loggers *)
  let logger_dict := logging.loggerDict σ in
  match logger_dict with
  | [] => print "No named loggers configured."
  | _ =>
    (* Sort loggers by name for better readability *)
    let sorted_loggers := sorted_items logger_dict in
    print ("Total loggers: " +:+ pretty (Z.of_nat (length sorted_loggers)));;
    print "";;
    for_each sorted_loggers (λ '(name, logger_obj),
      match logger_obj with
      | logging.PlaceHolder =>
          (* Skip PlaceHolder objects *)
          print ("📍 " +:+ name +:+ " (PlaceHolder)")
      | logging.ALogger l => show_logger_entry fuel σ name l
      end)
  end.

(** The loop that finds the child loggers of [logger]: the registered
    loggers whose [parent] is [logger] itself. *)
Definition find_children (σ : logging.state) (logger : logging.ref) : list logging.ref :=
  foldl (λ children '(name, child_logger),
           match child_logger with
           | logging.ALogger c =>
               if bool_decide (logging.parent (logging.store σ c) = Some logger)
               then children ++ [c] else children
           | logging.PlaceHolder => children
           end) [] (logging.loggerDict σ).

(** Recursively print logger hierarchy. *)
Fixpoint print_logger_tree (fuel : nat) (σ : logging.state)
    (logger : logging.ref) (indent : nat) : io unit :=
  match fuel with
  | O => lift OutOfFuel
  | S fuel' =>
    let lg := logging.store σ logger in
    let prefix := str_repeat "  " indent in
    effective ← lift (logging.getEffectiveLevel fuel σ (Some logger));
    let level_info := pretty effective in
    let handlers_info :=
      match logging.handlers lg with
      | [] => "(no handlers)"
      | hs => "(" +:+ pretty (Z.of_nat (length hs)) +:+ " handlers)"
      end in
    print (prefix +:+ "├─ "
             +:+ (if String.eqb (logging.name lg) "" then "root" else logging.name lg)
             +:+ " [Level: " +:+ level_info +:+ "] " +:+ handlers_info);;
    (* Find child loggers *)
    let children := find_children σ logger in
    (* Sort children by name *)
    let children :=
      sorted (key_lt (λ x, logging.name (logging.store σ x))) children in
    for_each children (λ child, print_logger_tree fuel' σ child (S indent))
  end.

(** Display logger hierarchy. *)
Definition show_logger_hierarchy (fuel : nat) (σ : logging.state) : io unit :=
  print "🌳 LOGGER HIERARCHY";;
  print (str_repeat "=" 50);;
  let root_logger := logging.root σ in
  print_logger_tree fuel σ root_logger 0;;
  print "".

(** The two collecting loops of the handler summary: the handlers of the
    root logger, then those of every registered logger. *)
Definition collect_handlers (σ : logging.state) : list (string * value) :=
  let all_handlers :=
    foldl (λ acc handler, acc ++ [("root", handler)]) []
          (logging.handlers (logging.store σ (logging.root σ))) in
  foldl (λ acc '(name, logger_obj),
           match logger_obj with
           | logging.ALogger l =>
               foldl (λ acc handler, acc ++ [(name, handler)]) acc
                     (logging.handlers (logging.store σ l))
           | logging.PlaceHolder => acc
           end) all_handlers (logging.loggerDict σ).

(** Count handler types: group the collected handlers by kind name. *)
Definition group_handlers (all_handlers : list (string * value))
  : gmap string (list (string * value)) :=
  foldl (λ handler_types '(logger_name, handler),
           let handler_type := type_name handler in
           let handler_types :=
             match handler_types !! handler_type with
             | None => <[handler_type := []]> handler_types
             | Some _ => handler_types
             end in
           <[handler_type :=
               default [] (handler_types !! handler_type) ++ [(logger_name, handler)]]>
             handler_types)
        ∅ all_handlers.

(** Show summary of all handlers across all loggers. *)
Definition show_handler_summary (σ : logging.state) : io unit :=
  print "🔧 HANDLER SUMMARY";;
  print (str_repeat "=" 50);;
  let all_handlers := collect_handlers σ in
  let handler_types := group_handlers all_handlers in
  print ("Total handlers: " +:+ pretty (Z.of_nat (length all_handlers)));;
  print ("Handler types: " +:+ pretty (Z.of_nat (size handler_types)));;
  print "";;
  for_each (sorted_items (map_to_list handler_types)) (λ '(handler_type, handlers),
    print ("📌 " +:+ handler_type +:+ " ("
             +:+ pretty (Z.of_nat (length handlers)) +:+ " instances)");;
    for_each handlers (λ '(logger_name, handler),
      lv ← lift (attr handler "level");
      let level := logging.getLevelName lv in
      print ("  └─ Logger: " +:+ logger_name +:+ ", Level: " +:+ str level));;
    print "").

(** Show current logging module configuration. *)
Definition show_logging_config (σ : logging.state) : io unit :=
  print "⚙️  LOGGING CONFIGURATION";;
  print (str_repeat "=" 50);;
  print ("Python version: " +:+ logging.sys_version σ);;
  print ("Logging module: " +:+ logging.file σ);;
  print "";;
  (* Show important logging attributes *)
  print "Global Settings:";;
  print ("  Root logger level: "
           +:+ str (logging.getLevelName
                      (VInt (logging.level (logging.store σ (logging.root σ))))));;
  print ("  Last resort handler: " +:+ str (logging.lastResort σ));;
  print ("  Capture warnings: " +:+ str (logging.captureWarnings_defaults σ));;
  print "";;
  (* Show level names *)
  print "Level Names:";;
  let levels :=
    [ (logging.CRITICAL, "CRITICAL");
      (logging.ERROR, "ERROR");
      (logging.WARNING, "WARNING");
      (logging.INFO, "INFO");
      (logging.DEBUG, "DEBUG");
      (logging.NOTSET, "NOTSET") ] in
  for_each levels (λ '(level_num, level_name),
    print ("  " +:+ level_name +:+ ": " +:+ pretty level_num));;
  print "".

(** Main function to run all inspections. *)
Definition main (fuel : nat) (σ : logging.state) : io unit :=
  print "🔍 PYTHON LOGGING INSPECTOR";;
  print (str_repeat "=" 60);;
  print "";;
  show_logging_config σ;;
  show_root_logger fuel σ;;
  (* Comment out other sections to focus on root logger *)
  print "✅ Inspection complete!".


End reports.

(** ** Which handlers the inspector returns a mapping for

    The inspector reads [handler.level] and [handler.formatter] without a
    default, and iterates [handler.filters] when it is present and truthy.
    [logging.Handler.__init__] sets all three on every handler. *)
Definition inspectable (handler : value) : bool :=
  bool_decide (is_Some (lookup_attr handler "level"))
  && bool_decide (is_Some (lookup_attr handler "formatter"))
  && match lookup_attr handler "filters" with
     | Some fs =>
         if truthy fs then
           match iter fs with Ret _ => true | _ => false end
         else true
     | None => true
     end.



(** ** What the all-loggers report is expected to print

    A logger the inspector returns a mapping for, with the given fuel: its
    effective level resolves and its handlers are inspectable. *)
Definition logger_inspectable (fuel : nat) (σ : logging.state) (l : logging.ref) : bool :=
  match logging.getEffectiveLevel fuel σ (Some l) with Ret _ => true | _ => false end
  && forallb inspectable (logging.handlers (logging.store σ l)).

Definition registry_inspectable (fuel : nat) (σ : logging.state) : bool :=
  forallb (λ entry : string * logging.registered,
             match entry.2 with
             | logging.ALogger l => logger_inspectable fuel σ l
             | logging.PlaceHolder => true
             end) (logging.loggerDict σ).

Definition effective_level (fuel : nat) (σ : logging.state) (l : logging.ref) : Z :=
  match logging.getEffectiveLevel fuel σ (Some l) with
  | Ret z => z
  | _ => logging.NOTSET
  end.

(** The name shown for the parent of [l]. *)
Definition parent_label (σ : logging.state) (l : logging.ref) : string :=
  match logging.parent (logging.store σ l) with
  | Some p =>
      if String.eqb (logging.name (logging.store σ p)) "" then "root"
      else logging.name (logging.store σ p)
  | None => "root"
  end.

Definition handler_line (numbered : Z * value) : string :=
  "    Handler " +:+ pretty numbered.1 +:+ ": " +:+ type_name numbered.2
    +:+ " (Level: " +:+ str (logging.getLevelName (getattr numbered.2 "level" VNone))
    +:+ ")".

(** The full summary of a real logger, from the logger's own state. *)
Definition logger_summary (fuel : nat) (σ : logging.state)
    (name : string) (l : logging.ref) : list string :=
  let lg := logging.store σ l in
  [ "📖 " +:+ name;
    "  Level: " +:+ str (logging.getLevelName (VInt (logging.level lg)))
      +:+ " (" +:+ pretty (logging.level lg) +:+ ")";
    "  Effective Level: "
      +:+ str (logging.getLevelName (VInt (effective_level fuel σ l)))
      +:+ " (" +:+ pretty (effective_level fuel σ l) +:+ ")";
    "  Propagate: " +:+ str (VBool (logging.propagate lg));
    "  Disabled: " +:+ str (VBool (logging.disabled lg));
    "  Parent: " +:+ parent_label σ l;
    "  Handlers: " +:+ pretty (Z.of_nat (length (logging.handlers lg))) ]
  ++ match logging.filters lg with
     | [] => []
     | fs => ["  Filters: " +:+ join ", " (map type_name fs)]
     end
  ++ map handler_line (enumerate (logging.handlers lg) 1)
  ++ [""].

(** What the report shows for one registry entry: a placeholder by name
    only, a real logger by its full summary. *)
Definition entry_report (fuel : nat) (σ : logging.state)
    (entry : string * logging.registered) : list string :=
  match entry.2 with
  | logging.PlaceHolder => ["📍 " +:+ entry.1 +:+ " (PlaceHolder)"]
  | logging.ALogger l => logger_summary fuel σ entry.1 l
  end.

(** ** The hierarchy report

    The children of a node as the tree printer visits them, and the line it
    prints for a node. *)
Definition sorted_children (σ : logging.state) (logger : logging.ref) : list logging.ref :=
  sorted (key_lt (λ x, logging.name (logging.store σ x))) (find_children σ logger).

Definition tree_line (σ : logging.state) (logger : logging.ref) (indent : nat)
    (effective : Z) : string :=
  let lg := logging.store σ logger in
  str_repeat "  " indent +:+ "├─ "
    +:+ (if String.eqb (logging.name lg) "" then "root" else logging.name lg)
    +:+ " [Level: " +:+ pretty effective +:+ "] "
    +:+ match logging.handlers lg with
        | [] => "(no handlers)"
        | hs => "(" +:+ pretty (Z.of_nat (length hs)) +:+ " handlers)"
        end.

(** [registered σ c]: the registry holds the logger [c] under some name. *)
Definition registered (σ : logging.state) (c : logging.ref) : Prop :=
  ∃ name, (name, logging.ALogger c) ∈ logging.loggerDict σ.

(** [parent_chain σ l n]: following the parent links from [l] ends, after
    [n] steps, at a logger without a parent.  The links from a logger are
    acyclic exactly when it has such a chain. *)
Inductive parent_chain (σ : logging.state) : logging.ref → nat → Prop :=
| chain_end l :
    logging.parent (logging.store σ l) = None → parent_chain σ l 0
| chain_step l p n :
    logging.parent (logging.store σ l) = Some p →
    parent_chain σ p n → parent_chain σ l (S n).

(** ** The handler summary report *)

(** The number of handlers an entry of the registry contributes. *)
Definition handler_count (σ : logging.state) (entry : string * logging.registered) : nat :=
  match entry.2 with
  | logging.ALogger l => length (logging.handlers (logging.store σ l))
  | logging.PlaceHolder => 0
  end.

(** The groups in the order the report prints them. *)
Definition summary_groups (σ : logging.state) : list (string * list (string * value)) :=
  sorted_items (map_to_list (group_handlers (collect_handlers σ))).

Definition member_line (member : string * value) : string :=
  "  └─ Logger: " +:+ member.1 +:+ ", Level: "
    +:+ str (logging.getLevelName (getattr member.2 "level" VNone)).

Definition group_report (group : string * list (string * value)) : list string :=
  ("📌 " +:+ group.1 +:+ " (" +:+ pretty (Z.of_nat (length group.2)) +:+ " instances)")
    :: map member_line group.2 ++ [""].

(** ** The entry point *)

(** The title lines of the three reports that the entry point leaves out. *)
Definition skipped_titles : list string :=
  [ "📚 ALL LOGGERS"; "🌳 LOGGER HIERARCHY"; "🔧 HANDLER SUMMARY" ].

(** The same subsystem with another registry of named loggers. *)
Definition with_loggerDict (σ : logging.state)
    (dict : list (string * logging.registered)) : logging.state :=
  {| logging.store := logging.store σ;
     logging.root := logging.root σ;
     logging.loggerDict := dict;
     logging.module_classes := logging.module_classes σ;
     logging.lastResort := logging.lastResort σ;
     logging.captureWarnings_defaults := logging.captureWarnings_defaults σ;
     logging.file := logging.file σ;
     logging.sys_version := logging.sys_version σ |}.

(** Every line a computation prints satisfies [P]. *)
Definition prints {A} (P : string → Prop) (m : io A) : Prop :=
  Forall P (printed m).

(** *** Example objects *)

Definition builtin_list (items : list value) (rendering : string) : value :=
  VObj (Object 0 (PyClass "builtins" "list") [logging.object_]
          (bool_decide (items ≠ [])) rendering ∅ (Some items)).

Definition stderr : value :=
  VObj (Object 140001 (PyClass "_io" "TextIOWrapper") [logging.object_] true
          "<_io.TextIOWrapper name='<stderr>' mode='w' encoding='utf-8'>"
          {[ "name" := VStr "<stderr>" ]} None).

(** [logging.StreamHandler()] at level WARNING, no formatter. *)
Definition console_handler : value :=
  VObj (Object 140002 logging.StreamHandler
          [logging.Handler; logging.Filterer; logging.object_] true
          "<StreamHandler <stderr> (WARNING)>"
          {[ "level" := VInt 30; "formatter" := VNone;
             "filters" := builtin_list [] "[]"; "stream" := stderr;
             "__module__" := VStr "logging" ]} None).

(** [logging.handlers.RotatingFileHandler("/var/log/app.log",
    maxBytes=1048576, backupCount=5)]. *)
Definition rotating_handler : value :=
  VObj (Object 140003 logging.RotatingFileHandler
          [logging.BaseRotatingHandler; logging.FileHandler; logging.StreamHandler;
           logging.Handler; logging.Filterer; logging.object_] true
          "<RotatingFileHandler /var/log/app.log (NOTSET)>"
          {[ "level" := VInt 0; "formatter" := VNone;
             "filters" := builtin_list [] "[]";
             "baseFilename" := VStr "/var/log/app.log"; "mode" := VStr "a";
             "encoding" := VStr "utf-8"; "maxBytes" := VInt 1048576;
             "backupCount" := VInt 5; "__module__" := VStr "logging.handlers" ]} None).

(** [logging.handlers.TimedRotatingFileHandler("/var/log/app.log",
    when="midnight", backupCount=7)]. *)
Definition timed_handler : value :=
  VObj (Object 140004 logging.TimedRotatingFileHandler
          [logging.BaseRotatingHandler; logging.FileHandler; logging.StreamHandler;
           logging.Handler; logging.Filterer; logging.object_] true
          "<TimedRotatingFileHandler /var/log/app.log (NOTSET)>"
          {[ "level" := VInt 0; "formatter" := VNone;
             "filters" := builtin_list [] "[]";
             "baseFilename" := VStr "/var/log/app.log"; "mode" := VStr "a";
             "encoding" := VStr "utf-8"; "when" := VStr "MIDNIGHT";
             "interval" := VInt 86400; "backupCount" := VInt 7;
             "__module__" := VStr "logging.handlers" ]} None).


Definition root_logger_only (hs : list value) : logging.Logger :=
  {| logging.name := "root"; logging.level := 30; logging.parent := None;
     logging.propagate := true; logging.disabled := false;
     logging.handlers := hs; logging.filters := [] |}.

(** A freshly imported logging module: only the root logger, no handler. *)
Definition fresh : logging.state :=
  {| logging.store := λ _, root_logger_only [];
     logging.root := 0%nat;
     logging.loggerDict := [];
     logging.module_classes := ∅;
     logging.lastResort :=
       VObj (Object 140000 (PyClass "logging" "_StderrHandler")
               [logging.StreamHandler; logging.Handler; logging.Filterer;
                logging.object_] true "<_StderrHandler <stderr> (WARNING)>" ∅ None);
     logging.captureWarnings_defaults := VNone;
     logging.file := "/usr/lib/python3.12/logging/__init__.py";
     logging.sys_version := "3.12.3 (main) [GCC 13.2.0]" |}.

#[local] Instance example_container_str : ContainerStr := λ _, "<container>".


(** A configured process: the root logger with a console handler;
    [getLogger("a.b")] was called before any [getLogger("a")], so ["a"] is a
    placeholder and the parent of ["a.b"] is the root; ["app"] has a
    rotating file handler and the child ["app.db"]. *)
Definition example_store (l : logging.ref) : logging.Logger :=
  match l with
  | 1%nat =>
      {| logging.name := "a.b"; logging.level := 0; logging.parent := Some 0%nat;
         logging.propagate := true; logging.disabled := false;
         logging.handlers := []; logging.filters := [] |}
  | 2%nat =>
      {| logging.name := "app"; logging.level := 20; logging.parent := Some 0%nat;
         logging.propagate := true; logging.disabled := false;
         logging.handlers := [rotating_handler]; logging.filters := [] |}
  | 3%nat =>
      {| logging.name := "app.db"; logging.level := 0; logging.parent := Some 2%nat;
         logging.propagate := false; logging.disabled := false;
         logging.handlers := [console_handler; rotating_handler];
         logging.filters := [] |}
  | _ => root_logger_only [console_handler]
  end.

Definition example : logging.state :=
  {| logging.store := example_store;
     logging.root := 0%nat;
     logging.loggerDict :=
       [ ("a.b", logging.ALogger 1%nat); ("a", logging.PlaceHolder);
         ("app.db", logging.ALogger 3%nat); ("app", logging.ALogger 2%nat) ];
     logging.module_classes := ∅;
     logging.lastResort := logging.lastResort fresh;
     logging.captureWarnings_defaults := VNone;
     logging.file := logging.file fresh;
     logging.sys_version := logging.sys_version fresh |}.

(** ** What the handler details printer is expected to print *)

(** The keys every mapping of the handler inspector has, and the
    kind-specific keys it may have besides. *)
Definition base_keys : gset string :=
  {[ "type"; "level"; "level_num"; "formatter"; "filters" ]}.

Definition kind_keys : gset string :=
  {[ "filename"; "mode"; "encoding"; "stream";
     "maxBytes"; "backupCount"; "when"; "interval" ]}.

(** The optional detail lines, in the order the printer tests their keys,
    each with its label. *)
Definition detail_fields : list (string * string) :=
  [ ("filename", "File: "); ("stream", "Stream: "); ("mode", "Mode: ");
    ("encoding", "Encoding: "); ("maxBytes", "Max Bytes: ");
    ("backupCount", "Backup Count: "); ("when", "When: ");
    ("interval", "Interval: ") ].

Section expected_details.
Context `{ContainerStr}.

Definition detail_lines (info : gmap string data) (indent : string) : list string :=
  omap (λ field : string * string,
          (λ v, indent +:+ field.2 +:+ format v) <$> info !! field.1)
       detail_fields.

(** The formatter block for the formatter field of an inspector mapping. *)
Definition formatter_lines (fmt : data) (indent : string) : list string :=
  match fmt with
  | Dict d =>
      [ indent +:+ "Formatter:";
        indent +:+ "  Format: " +:+ from_option format "" (d !! "format");
        indent +:+ "  Date Format: " +:+ from_option format "" (d !! "datefmt");
        indent +:+ "  Style: " +:+ from_option format "" (d !! "style") ]
  | _ => [ indent +:+ "Formatter: None" ]
  end.

Definition filters_line (names : list string) (indent : string) : string :=
  match names with
  | [] => indent +:+ "Filters: None"
  | _ => indent +:+ "Filters: " +:+ join ", " names
  end.
End expected_details.

(** The kind names of the filters the inspector lists for a handler. *)
Definition filter_names (handler : value) : list string :=
  match lookup_attr handler "filters" with
  | Some fs =>
      if truthy fs then
        match iter fs with Ret l => map type_name l | _ => [] end
      else []
  | None => []
  end.

(** ** What the root logger report is expected to print *)

(** The mapping the handler inspector returns for a handler (an empty one
    where it fails). *)
Definition inspected (σ : logging.state) (handler : value) : gmap string data :=
  match get_handler_info σ handler with
  | Ret info => info
  | _ => ∅
  end.

Section expected_root.
Context `{ContainerStr}.

(** The detail lines of a handler, from the handler itself. *)
Definition handler_details (σ : logging.state) (handler : value) (indent : string)
  : list string :=
  [ indent +:+ "Type: " +:+ type_name handler;
    indent +:+ "Level: "
      +:+ str (logging.getLevelName (getattr handler "level" VNone))
      +:+ " (" +:+ str (getattr handler "level" VNone) +:+ ")" ]
  ++ detail_lines (inspected σ handler) indent
  ++ formatter_lines (default None_ (inspected σ handler !! "formatter")) indent
  ++ [filters_line (filter_names handler) indent].

(** The block of the [i]-th handler of the root logger. *)
Definition root_handler_block (σ : logging.state) (numbered : Z * value) : list string :=
  [ "Handler " +:+ pretty numbered.1 +:+ ":" ]
  ++ handler_details σ numbered.2 "    "
  ++ [ "    Handler ID: " +:+ pretty (id numbered.2) ]
  ++ match lookup_attr numbered.2 "__module__" with
     | Some m => [ "    Module: " +:+ str m ]
     | None => []
     end
  ++ [ "" ].

Definition root_report (fuel : nat) (σ : logging.state) : list string :=
  let lg := logging.store σ (logging.root σ) in
  [ "🌟 ROOT LOGGER"; str_repeat "=" 50;
    "Level: " +:+ str (logging.getLevelName (VInt (logging.level lg)))
      +:+ " (" +:+ pretty (logging.level lg) +:+ ")";
    "Effective Level: "
      +:+ str (logging.getLevelName (VInt (effective_level fuel σ (logging.root σ))))
      +:+ " (" +:+ pretty (effective_level fuel σ (logging.root σ)) +:+ ")";
    "Disabled: " +:+ str (VBool (logging.disabled lg));
    "Handlers: " +:+ pretty (Z.of_nat (length (logging.handlers lg)));
    match logging.filters lg with
    | [] => "Filters: None"
    | fs => "Filters: " +:+ join ", " (map type_name fs)
    end;
    "" ]
  ++ match logging.handlers lg with
     | [] => [ "📋 ROOT LOGGER HANDLERS: None"; "" ]
     | hs =>
         [ "📋 ROOT LOGGER HANDLERS"; str_repeat "-" 30 ]
         ++ concat (map (root_handler_block σ) (enumerate hs 1))
     end.
End expected_root.

(** A process in which the logger ["b"] was given something that is no
    handler (it has no [level]); ["a"] is a placeholder. *)
Definition broken_store (l : logging.ref) : logging.Logger :=
  match l with
  | 1%nat =>
      {| logging.name := "b"; logging.level := 0; logging.parent := Some 0%nat;
         logging.propagate := true; logging.disabled := false;
         logging.handlers := [stderr]; logging.filters := [] |}
  | _ => root_logger_only []
  end.

Definition broken : logging.state :=
  {| logging.store := broken_store;
     logging.root := 0%nat;
     logging.loggerDict := [ ("b", logging.ALogger 1%nat); ("a", logging.PlaceHolder) ];
     logging.module_classes := ∅;
     logging.lastResort := logging.lastResort fresh;
     logging.captureWarnings_defaults := VNone;
     logging.file := logging.file fresh;
     logging.sys_version := logging.sys_version fresh |}.

(** A process whose root logger was given something that is no handler. *)
Definition broken_root : logging.state :=
  {| logging.store := λ _, root_logger_only [stderr];
     logging.root := 0%nat;
     logging.loggerDict := [];
     logging.module_classes := ∅;
     logging.lastResort := logging.lastResort fresh;
     logging.captureWarnings_defaults := VNone;
     logging.file := logging.file fresh;
     logging.sys_version := logging.sys_version fresh |}.

(** ** The hierarchy report: extra definitions *)

(** The objects that the registry holds as real loggers, in registry order. *)
Definition registered_refs (σ : logging.state) : list logging.ref :=
  omap (λ entry : string * logging.registered,
          match entry.2 with
          | logging.ALogger c => Some c
          | logging.PlaceHolder => None
          end) (logging.loggerDict σ).


(** A process whose registered loggers ["x"] and ["y"] are each other's
    parent, away from the root. *)
Definition detached_store (l : logging.ref) : logging.Logger :=
  match l with
  | 1%nat =>
      {| logging.name := "x"; logging.level := 0; logging.parent := Some 2%nat;
         logging.propagate := true; logging.disabled := false;
         logging.handlers := []; logging.filters := [] |}
  | 2%nat =>
      {| logging.name := "y"; logging.level := 0; logging.parent := Some 1%nat;
         logging.propagate := true; logging.disabled := false;
         logging.handlers := []; logging.filters := [] |}
  | _ => root_logger_only []
  end.

Definition detached_cycle : logging.state :=
  with_loggerDict
    {| logging.store := detached_store;
       logging.root := 0%nat;
       logging.loggerDict := [];
       logging.module_classes := ∅;
       logging.lastResort := logging.lastResort fresh;
       logging.captureWarnings_defaults := VNone;
       logging.file := logging.file fresh;
       logging.sys_version := logging.sys_version fresh |}
    [ ("x", logging.ALogger 1%nat); ("y", logging.ALogger 2%nat) ].

(** A process in which the root logger was registered under a name and made
    the parent of the logger ["x"], whose child it is in turn. *)
Definition looped_store (l : logging.ref) : logging.Logger :=
  match l with
  | 0%nat =>
      {| logging.name := "root"; logging.level := 30; logging.parent := Some 1%nat;
         logging.propagate := true; logging.disabled := false;
         logging.handlers := []; logging.filters := [] |}
  | _ =>
      {| logging.name := "x"; logging.level := 0; logging.parent := Some 0%nat;
         logging.propagate := true; logging.disabled := false;
         logging.handlers := []; logging.filters := [] |}
  end.

Definition looped : logging.state :=
  with_loggerDict
    {| logging.store := looped_store;
       logging.root := 0%nat;
       logging.loggerDict := [];
       logging.module_classes := ∅;
       logging.lastResort := logging.lastResort fresh;
       logging.captureWarnings_defaults := VNone;
       logging.file := logging.file fresh;
       logging.sys_version := logging.sys_version fresh |}
    [ ("x", logging.ALogger 1%nat); ("again", logging.ALogger 0%nat) ].

(** ** The handler summary: extra definitions *)


(** ** The former entry point: extra definitions *)


(** ** Laws of the result and printing monads *)

Lemma io_eta {A} (m : io A) : IO (printed m) (result m) = m.
Proof. by destruct m. Qed.

Lemma io_bind_print {A} (s : string) (f : unit → io A) :
  print s ≫= f = IO (s :: printed (f tt)) (result (f tt)).
Proof. reflexivity. Qed.

Lemma io_bind_lift_Ret {A B} (a : A) (f : A → io B) : lift (Ret a) ≫= f = f a.
Proof. unfold lift, mbind, io_bind; simpl. apply io_eta. Qed.



Lemma io_bind_mret {A B} (a : A) (f : A → io B) : mret a ≫= f = f a.
Proof. unfold mret, io_ret, mbind, io_bind; simpl. apply io_eta. Qed.

Lemma io_bind_IO_Ret {A B} (out : list string) (a : A) (f : A → io B) :
  IO out (Ret a) ≫= f = IO (out ++ printed (f a)) (result (f a)).
Proof. reflexivity. Qed.

Lemma io_bind_assoc {A B C} (m : io A) (f : A → io B) (g : B → io C) :
  (m ≫= f) ≫= g = m ≫= (λ a, f a ≫= g).
Proof.
  destruct m as [out [a| |]]; try reflexivity.
  unfold mbind, io_bind; simpl.
  destruct (f a) as [out' [b| |]]; simpl; try reflexivity.
  by rewrite app_assoc.
Qed.

(** A computation that returns, with its output. *)
Definition returns {A} (m : io A) (out : list string) (a : A) : Prop :=
  m = IO out (Ret a).

Lemma returns_bind {A B} (m : io A) (f : A → io B) out1 a out2 b :
  returns m out1 a → returns (f a) out2 b → returns (m ≫= f) (out1 ++ out2) b.
Proof. unfold returns. intros -> H. unfold mbind, io_bind; simpl. by rewrite H. Qed.

Lemma returns_print s : returns (print s) [s] tt.
Proof. reflexivity. Qed.

Lemma returns_lift {A} (m : outcome A) a : m = Ret a → returns (lift m) [] a.
Proof. by intros ->. Qed.

Lemma returns_mret {A} (a : A) : returns (mret a) [] a.
Proof. reflexivity. Qed.

(** A loop whose every iteration returns prints the iterations' outputs in
    order. *)
Lemma returns_for_each {A} (xs : list A) (body : A → io unit) (out : A → list string) :
  (∀ x, x ∈ xs → returns (body x) (out x) tt) →
  returns (for_each xs body) (concat (map out xs)) tt.
Proof.
  induction xs as [|x xs IH]; intros Hbody; simpl.
  - reflexivity.
  - eapply returns_bind.
    + apply Hbody. by left.
    + apply IH. intros y Hy. apply Hbody. by right.
Qed.

(** ** The handler inspector *)

Lemma attr_Some v name x : lookup_attr v name = Some x → attr v name = Ret x.
Proof. unfold attr. by intros ->. Qed.


Lemma inspectable_attrs handler :
  inspectable handler = true →
  ∃ lv fmt,
    lookup_attr handler "level" = Some lv ∧ lookup_attr handler "formatter" = Some fmt.
Proof.
  unfold inspectable. intros H.
  apply andb_prop in H as [H _]. apply andb_prop in H as [H1 H2].
  apply bool_decide_eq_true in H1 as [lv ?], H2 as [fmt ?]. eauto.
Qed.

(** The filters step of the inspector returns on an inspectable handler. *)
Lemma filters_step_returns handler :
  inspectable handler = true →
  ∃ names,
    (if hasattr handler "filters" && truthy (getattr handler "filters" VNone) then
       fs ← iter (getattr handler "filters" VNone); Ret (type_names fs)
     else Ret (List [])) = Ret (List (map Str names)).
Proof.
  unfold inspectable. intros H. apply andb_prop in H as [_ H].
  unfold hasattr, getattr.
  destruct (lookup_attr handler "filters") as [fs|]; simpl; [|by exists []].
  destruct (truthy fs); simpl; [|by exists []].
  destruct (iter fs) as [l| |]; try done. simpl.
  exists (map type_name l). unfold type_names. by rewrite map_map.
Qed.

(** Unfolds the inspector on an inspectable handler up to the choice of the
    kind branch. *)
Ltac inspect Hok :=
  let lv := fresh "lv" in
  let fmt := fresh "fmt" in
  let Hlv := fresh "Hlv" in
  let Hfmt := fresh "Hfmt" in
  let names := fresh "names" in
  let Hnames := fresh "Hnames" in
  destruct (inspectable_attrs _ Hok) as (lv & fmt & Hlv & Hfmt);
  destruct (filters_step_returns _ Hok) as [names Hnames];
  unfold get_handler_info;
  rewrite (attr_Some _ _ _ Hlv), (attr_Some _ _ _ Hfmt);
  cbn [mbind outcome_bind];
  rewrite Hnames; clear Hnames.

(** The inspector returns a mapping exactly for the inspectable handlers. *)
Lemma get_handler_info_returns σ handler :
  inspectable handler = true → ∃ info, get_handler_info σ handler = Ret info.
Proof.
  intros Hok. inspect Hok.
  destruct (isinstance handler logging.FileHandler); [eexists; reflexivity|].
  destruct (isinstance handler logging.StreamHandler).
  - destruct (truthy (getattr handler "stream" VNone)); [|eexists; reflexivity].
    unfold hasattr, attr.
    destruct (lookup_attr _ "name"); eexists; reflexivity.
  - destruct (module_isinstance σ "RotatingFileHandler" handler);
      [eexists; reflexivity|].
    destruct (module_isinstance σ "TimedRotatingFileHandler" handler);
      eexists; reflexivity.
Qed.

Lemma get_handler_info_inspectable σ handler info :
  get_handler_info σ handler = Ret info → inspectable handler = true.
Proof.
  unfold get_handler_info, inspectable, attr, hasattr, getattr.
  destruct (lookup_attr handler "level") as [lv|]; [|done].
  destruct (lookup_attr handler "formatter") as [fmt|]; [|done].
  cbn [mbind outcome_bind].
  destruct (lookup_attr handler "filters") as [fs|]; [|done].
  simpl. destruct (truthy fs); [|done].
  destruct (iter fs); [done|..]; intros Hr; exfalso; revert Hr;
    repeat (match goal with
            | |- context [if ?b then _ else _] => destruct b
            | |- context [match ?o with Some _ => _ | None => _ end] => destruct o
            end; simpl); done.
Qed.

(** ** Claims about the handler inspector *)




(** C10.  For a generic stream handler (a [StreamHandler] that is not a
    [FileHandler]) the stream field of the mapping is the stream's [name]
    when the stream is present, truthy and has one, [str(stream)] when it is
    present and truthy without a [name], and ["N/A"] when the stream
    attribute is absent or falsy. *)
Theorem stream_handler_stream_field (σ : logging.state) (handler : value) :
  inspectable handler = true →
  isinstance handler logging.FileHandler = false →
  isinstance handler logging.StreamHandler = true →
  ∃ info, get_handler_info σ handler = Ret info ∧
    match lookup_attr handler "stream" with
    | Some stream =>
        if truthy stream then
          match lookup_attr stream "name" with
          | Some name => info !! "stream" = Some (Val name)
          | None => info !! "stream" = Some (Str (str stream))
          end
        else info !! "stream" = Some (Str "N/A")
    | None => info !! "stream" = Some (Str "N/A")
    end.
Proof.
  intros Hok Hfile Hstream. inspect Hok.
  rewrite Hfile, Hstream. unfold hasattr, getattr, attr.
  destruct (lookup_attr handler "stream") as [stream|]; simpl.
  - destruct (truthy stream); simpl.
    + destruct (lookup_attr stream "name") as [name|] eqn:Hname; simpl;
        (eexists; split; [reflexivity|]); by simplify_map_eq.
    + eexists; split; [reflexivity|]. by simplify_map_eq.
  - eexists; split; [reflexivity|]. by simplify_map_eq.
Qed.

Lemma stream_handler_stream_field_witness :
  ∃ info, get_handler_info fresh console_handler = Ret info ∧
    info !! "stream" = Some (Str "<stderr>").
Proof.
  destruct (stream_handler_stream_field fresh console_handler)
    as (info & Hinfo & Hstream); [vm_compute; reflexivity..|].
  exists info. split; [exact Hinfo|exact Hstream].
Defined.

(** C1.  A size-based rotating file handler and a time-based one are both
    inspected under the plain file kind, whatever the logging module binds:
    their mappings carry filename, mode and encoding, and none of maxBytes,
    backupCount, when and interval. *)
Theorem rotating_handlers_inspected_as_files (σ : logging.state) :
  (∃ info, get_handler_info σ rotating_handler = Ret info ∧
     info !! "filename" = Some (Str "/var/log/app.log") ∧
     info !! "mode" = Some (Str "a") ∧
     info !! "encoding" = Some (Str "utf-8") ∧
     info !! "maxBytes" = None ∧ info !! "backupCount" = None) ∧
  (∃ info, get_handler_info σ timed_handler = Ret info ∧
     info !! "filename" = Some (Str "/var/log/app.log") ∧
     info !! "mode" = Some (Str "a") ∧
     info !! "encoding" = Some (Str "utf-8") ∧
     info !! "when" = None ∧ info !! "interval" = None ∧
     info !! "backupCount" = None).
Proof.
  split; (eexists; split; [reflexivity|]); repeat split; vm_compute; reflexivity.
Qed.

(** The rotating branches are shadowed for every handler of a file kind,
    and never taken while the logging module does not bind the classes. *)
Lemma file_kind_shadows_rotating σ handler info key :
  isinstance handler logging.FileHandler = true →
  get_handler_info σ handler = Ret info →
  key ∈ ["maxBytes"; "backupCount"; "when"; "interval"] →
  info !! key = None.
Proof.
  intros Hfile Hinfo Hkey.
  pose proof (get_handler_info_inspectable _ _ _ Hinfo) as Hok.
  revert Hinfo. inspect Hok. rewrite Hfile. simpl. intros [= <-].
  repeat (apply elem_of_cons in Hkey as [->|Hkey]);
    [..|by apply elem_of_nil in Hkey]; destruct (truthy fmt); by simplify_map_eq.
Qed.

Lemma stock_module_never_rotating σ handler info key :
  logging.module_classes σ = ∅ →
  get_handler_info σ handler = Ret info →
  key ∈ ["maxBytes"; "backupCount"; "when"; "interval"] →
  info !! key = None.
Proof.
  intros Hstock Hinfo Hkey.
  pose proof (get_handler_info_inspectable _ _ _ Hinfo) as Hok.
  revert Hinfo. inspect Hok. unfold module_isinstance. rewrite Hstock, !lookup_empty.
  destruct (isinstance handler logging.FileHandler);
    [|destruct (isinstance handler logging.StreamHandler);
      [destruct (truthy (getattr handler "stream" VNone));
        [unfold hasattr, attr;
         destruct (lookup_attr (getattr handler "stream" VNone) "name")|]|]];
  simpl; intros [= <-];
  repeat (apply elem_of_cons in Hkey as [->|Hkey]);
    try (by apply elem_of_nil in Hkey); destruct (truthy fmt); by simplify_map_eq.
Qed.

Section printing.
Context `{ContainerStr}.

Lemma print_field_returns info indent key label :
  ∃ out, print_field info indent key label = IO out (Ret tt).
Proof.
  unfold print_field, contains, item. case_bool_decide as Hk.
  - destruct Hk as [v ->]. rewrite io_bind_lift_Ret. by eexists.
  - by eexists.
Qed.

Lemma map_outcome_as_str names : map_outcome as_str (map Str names) = Ret names.
Proof. induction names as [|n ns IH]; simpl; [done|]. by rewrite IH. Qed.

Lemma join_data_names sep names :
  join_data sep (List (map Str names)) = Ret (join sep names).
Proof. unfold join_data. simpl. by rewrite map_outcome_as_str. Qed.

Lemma print_handler_details_unformatted info indent ty lv lvn names :
  info !! "type" = Some ty → info !! "level" = Some lv →
  info !! "level_num" = Some lvn → info !! "formatter" = Some None_ →
  info !! "filters" = Some (List (map Str names)) →
  ∃ before after,
    print_handler_details (Dict info) indent =
      IO (before ++ [indent +:+ "Formatter: None"; after]) (Ret tt).
Proof.
  intros Hty Hlv Hlvn Hfmt Hfs.
  unfold print_handler_details. simpl as_dict. rewrite io_bind_lift_Ret.
  unfold item. rewrite Hty, Hlv, Hlvn, Hfmt, Hfs.
  destruct (print_field_returns info indent "filename" "File: ") as [o1 ->].
  destruct (print_field_returns info indent "stream" "Stream: ") as [o2 ->].
  destruct (print_field_returns info indent "mode" "Mode: ") as [o3 ->].
  destruct (print_field_returns info indent "encoding" "Encoding: ") as [o4 ->].
  destruct (print_field_returns info indent "maxBytes" "Max Bytes: ") as [o5 ->].
  destruct (print_field_returns info indent "backupCount" "Backup Count: ") as [o6 ->].
  destruct (print_field_returns info indent "when" "When: ") as [o7 ->].
  destruct (print_field_returns info indent "interval" "Interval: ") as [o8 ->].
  assert (Hfilters : ∃ after,
    (if truthy_data (List (map Str names)) then
       names ← lift (join_data ", " (List (map Str names)));
       print (indent +:+ "Filters: " +:+ names)
     else print (indent +:+ "Filters: None")) = IO [after] (Ret tt)).
  { destruct names as [|n ns]; [by eexists|].
    simpl truthy_data.
    rewrite join_data_names, io_bind_lift_Ret. by eexists. }
  rewrite !io_bind_lift_Ret. cbv beta.
  destruct Hfilters as [after ->].
  rewrite !io_bind_print. simpl.
  exists ((indent +:+ "Type: " +:+ format ty)
            :: (indent +:+ "Level: " +:+ format lv +:+ " (" +:+ format lvn +:+ ")")
            :: o1 ++ o2 ++ o3 ++ o4 ++ o5 ++ o6 ++ o7 ++ o8), after.
  simpl. by rewrite <- !app_assoc.
Qed.

(** C5.  For a handler with no formatter attached ([handler.formatter] is
    [None], or falsy), the inspector returns a mapping whose formatter field
    is [None], and the details printer, which returns too, prints the line
    ["Formatter: None"] for it, followed by the filters line. *)
Theorem unformatted_handler_formatter_None
    (σ : logging.state) (handler : value) (indent : string) :
  inspectable handler = true →
  truthy (getattr handler "formatter" VNone) = false →
  ∃ info before after,
    get_handler_info σ handler = Ret info ∧
    info !! "formatter" = Some None_ ∧
    print_handler_details (Dict info) indent =
      IO (before ++ [indent +:+ "Formatter: None"; after]) (Ret tt).
Proof.
  intros Hok Hfalsy.
  destruct (get_handler_info_returns σ _ Hok) as [info Hinfo].
  revert Hinfo. inspect Hok.
  unfold getattr in Hfalsy. rewrite Hfmt in Hfalsy. rewrite Hfalsy.
  intros Hinfo.
  assert (∃ ty lvl lvn,
    info !! "type" = Some ty ∧ info !! "level" = Some lvl ∧
    info !! "level_num" = Some lvn ∧ info !! "formatter" = Some None_ ∧
    info !! "filters" = Some (List (map Str names))) as (ty & lvl & lvn & ? & ? & ? & ? & ?).
  { revert Hinfo.
    destruct (isinstance handler logging.FileHandler);
      [|destruct (isinstance handler logging.StreamHandler);
        [destruct (truthy (getattr handler "stream" VNone));
          [unfold hasattr, attr;
           destruct (lookup_attr (getattr handler "stream" VNone) "name")|]
        |destruct (module_isinstance σ "RotatingFileHandler" handler);
          [|destruct (module_isinstance σ "TimedRotatingFileHandler" handler)]]];
    simpl; intros [= <-]; do 3 eexists; by simplify_map_eq. }
  destruct (print_handler_details_unformatted info indent ty lvl lvn names)
    as (before & after & Hprint); try done.
  by exists info, before, after.
Qed.
End printing.

Lemma unformatted_handler_formatter_None_witness :
  ∃ info before after,
    get_handler_info fresh console_handler = Ret info ∧
    info !! "formatter" = Some None_ ∧
    print_handler_details (Dict info) "    " =
      IO (before ++ ["    Formatter: None"; after]) (Ret tt).
Proof.
  apply (unformatted_handler_formatter_None fresh console_handler "    ");
    vm_compute; reflexivity.
Defined.

(** ** Python's [sorted] on string keys *)

Lemma ltb_false_leb (x y : string) : String.ltb y x = false → String.leb x y = true.
Proof.
  unfold String.ltb, String.leb. rewrite (String.compare_antisym x y).
  by destruct (String.compare y x).
Qed.

Lemma ltb_leb (x y : string) : String.ltb x y = true → String.leb x y = true.
Proof. unfold String.ltb, String.leb. by destruct (String.compare x y). Qed.

Lemma leb_trans (x y z : string) :
  String.leb x y = true → String.leb y z = true → String.leb x z = true.
Proof.
  intros Hxy Hyz. apply Is_true_true.
  change (String.le x z). trans y; by apply Is_true_true.
Qed.

Lemma leb_ne_ltb (x y : string) :
  String.leb x y = true → x ≠ y → String.ltb x y = true.
Proof.
  unfold String.ltb, String.leb. intros Hle Hne.
  destruct (String.compare x y) eqn:Hc; try done.
  by apply String.compare_eq_iff in Hc.
Qed.

Section sorted_by_key.
Context {A : Type} (key : A → string).

Lemma sorted_insert_perm x l : sorted_insert (key_lt key) x l ≡ₚ x :: l.
Proof.
  induction l as [|y l IH]; simpl; [done|].
  destruct ((key_lt key) y x); [|done].
  rewrite IH. apply perm_swap.
Qed.

Lemma sorted_perm l : sorted (key_lt key) l ≡ₚ l.
Proof.
  induction l as [|x l IH]; simpl; [done|].
  fold (sorted (key_lt key) l). by rewrite sorted_insert_perm, IH.
Qed.

Lemma sorted_insert_sorted x l :
  StronglySorted (key_le key) l → StronglySorted (key_le key) (sorted_insert (key_lt key) x l).
Proof.
  induction 1 as [|y l Hl IH Hy]; simpl.
  - repeat constructor.
  - destruct ((key_lt key) y x) eqn:Hyx.
    + constructor; [done|].
      rewrite sorted_insert_perm. constructor; [|done].
      by apply ltb_leb.
    + apply ltb_false_leb in Hyx.
      constructor; [by constructor|].
      constructor; [done|].
      eapply Forall_impl; [exact Hy|]. intros z Hz. by eapply leb_trans.
Qed.

(** The result is in ascending order of the keys. *)
Lemma sorted_sorted l : StronglySorted (key_le key) (sorted (key_lt key) l).
Proof.
  induction l as [|x l IH]; simpl; [constructor|].
  by apply sorted_insert_sorted.
Qed.

Lemma strictly_sorted l :
  StronglySorted (key_le key) l → NoDup (map key l) → StronglySorted (key_lt_strict key) l.
Proof.
  induction 1 as [|x l Hl IH Hx]; simpl; [constructor|].
  intros [Hnotin Hnodup]%NoDup_cons. constructor; [by apply IH|].
  apply Forall_forall. intros y Hy.
  apply leb_ne_ltb; [by eapply Forall_forall in Hx|].
  intros Heq. apply Hnotin. rewrite Heq. by apply list_elem_of_fmap_2.
Qed.

(** When the keys are distinct, as the keys of a dict are, the order is
    strict. *)
Lemma sorted_strict l :
  NoDup (map key l) → StronglySorted (key_lt_strict key) (sorted (key_lt key) l).
Proof.
  intros Hnodup. apply strictly_sorted; [apply sorted_sorted|].
  by rewrite sorted_perm.
Qed.

End sorted_by_key.

(** ** The logger inspector and the all-loggers report *)

Lemma map_outcome_Ret {A B} (f : A → outcome B) xs ys :
  map_outcome f xs = Ret ys ↔ Forall2 (λ x y, f x = Ret y) xs ys.
Proof.
  revert ys. induction xs as [|x xs IH]; intros ys; simpl.
  - split; [by intros [= <-]; constructor|by inversion 1].
  - destruct (f x) as [y| |] eqn:Hx; simpl; [|split; [done|inversion 1; congruence]..].
    destruct (map_outcome f xs) as [ys'| |] eqn:Hxs; simpl.
    + split.
      * intros [= <-]. constructor; [done|]. by apply IH.
      * inversion 1 as [|? y' ? ys'' Hy Hys]; subst.
        apply IH in Hys. congruence.
    + split; [done|]. inversion 1 as [|? y' ? ys'' Hy Hys]; subst.
      apply IH in Hys. congruence.
    + split; [done|]. inversion 1 as [|? y' ? ys'' Hy Hys]; subst.
      apply IH in Hys. congruence.
Qed.

Lemma map_outcome_returns {A B} (f : A → outcome B) xs :
  Forall (λ x, ∃ y, f x = Ret y) xs → ∃ ys, map_outcome f xs = Ret ys.
Proof.
  induction 1 as [|x xs [y Hy] _ [ys Hys]]; simpl; [by eexists|].
  rewrite Hy, Hys. by eexists.
Qed.

Lemma get_handler_info_type_level σ handler info :
  get_handler_info σ handler = Ret info →
  info !! "type" = Some (Str (type_name handler)) ∧
  info !! "level" = Some (Val (logging.getLevelName (getattr handler "level" VNone))).
Proof.
  intros Hinfo.
  pose proof (get_handler_info_inspectable _ _ _ Hinfo) as Hok.
  revert Hinfo. inspect Hok.
  destruct (isinstance handler logging.FileHandler);
    [|destruct (isinstance handler logging.StreamHandler);
      [destruct (truthy (getattr handler "stream" VNone));
        [unfold hasattr, attr;
         destruct (lookup_attr (getattr handler "stream" VNone) "name")|]
      |destruct (module_isinstance σ "RotatingFileHandler" handler);
        [|destruct (module_isinstance σ "TimedRotatingFileHandler" handler)]]];
  simpl; intros [= <-]; unfold getattr; rewrite Hlv;
  destruct (truthy fmt); by simplify_map_eq.
Qed.

Lemma logger_inspectable_spec fuel σ l :
  logger_inspectable fuel σ l = true →
  logging.getEffectiveLevel fuel σ (Some l) = Ret (effective_level fuel σ l) ∧
  ∃ infos,
    Forall2 (λ h info, get_handler_info σ h = Ret info)
            (logging.handlers (logging.store σ l)) infos.
Proof.
  unfold logger_inspectable, effective_level.
  intros [Heff Hhs]%andb_prop. split.
  - by destruct (logging.getEffectiveLevel fuel σ (Some l)).
  - assert (∃ infos, map_outcome (get_handler_info σ)
              (logging.handlers (logging.store σ l)) = Ret infos) as [infos Hinfos].
    { apply map_outcome_returns. apply Forall_forall. intros h Hh.
      apply get_handler_info_returns.
      rewrite forallb_forall in Hhs. apply Hhs. by apply list_elem_of_In. }
    exists infos. by apply map_outcome_Ret.
Qed.

Section all_loggers.
Context `{ContainerStr}.

(** The handler lines of a summary. *)
Lemma handler_lines_return σ hs infos start :
  Forall2 (λ h info, get_handler_info σ h = Ret info) hs infos →
  returns
    (for_each (enumerate (map Dict infos) start) (λ '(i, handler_info),
       ty ← lift (getitem handler_info "type");
       lv ← lift (getitem handler_info "level");
       print ("    Handler " +:+ pretty i +:+ ": " +:+ format ty
                +:+ " (Level: " +:+ format lv +:+ ")")))
    (map handler_line (enumerate hs start)) tt.
Proof.
  intros Hall. revert start.
  induction Hall as [|h info hs infos Hinfo _ IH]; intros start;
    cbn [for_each enumerate map].
  - reflexivity.
  - apply get_handler_info_type_level in Hinfo as [Hty Hlv].
    unfold getitem, item. rewrite Hty, Hlv, !io_bind_lift_Ret.
    apply (returns_bind _ _ [_] tt); [apply returns_print|apply IH].
Qed.

Lemma returns_print_bind {A} s (f : unit → io A) out a :
  returns (f tt) out a → returns (print s ≫= f) (s :: out) a.
Proof. intros Hf. by apply (returns_bind _ _ [s] tt). Qed.

Ltac print_step :=
  apply returns_print_bind; cbv beta; rewrite ?io_bind_lift_Ret; cbv beta.

Lemma join_data_type_names sep fs :
  join_data sep (type_names fs) = Ret (join sep (map type_name fs)).
Proof.
  unfold type_names.
  rewrite <- (map_map type_name Str). apply join_data_names.
Qed.

Lemma show_logger_entry_returns fuel σ name l :
  logger_inspectable fuel σ l = true →
  returns (show_logger_entry fuel σ name l) (logger_summary fuel σ name l) tt.
Proof.
  intros Hok. destruct (logger_inspectable_spec _ _ _ Hok) as (Heff & infos & Hinfos).
  unfold show_logger_entry, get_logger_info.
  rewrite Heff. apply map_outcome_Ret in Hinfos as Hmap. rewrite Hmap.
  cbn [mbind outcome_bind]. rewrite io_bind_lift_Ret.
  unfold item.
  repeat (rewrite lookup_insert_eq || rewrite lookup_insert_ne by done).
  unfold logger_summary. cbn [app].
  print_step.
  print_step.
  print_step.
  print_step.
  print_step.
  assert (Hparent :
    format (if truthy_data
                 match logging.parent (logging.store σ l) with
                 | Some p => Str (logging.name (logging.store σ p))
                 | None => None_
                 end
            then match logging.parent (logging.store σ l) with
                 | Some p => Str (logging.name (logging.store σ p))
                 | None => None_
                 end
            else Str "root") = parent_label σ l).
  { unfold parent_label. destruct (logging.parent (logging.store σ l)) as [p|]; [|done].
    simpl. by destruct (String.eqb (logging.name (logging.store σ p)) ""). }
  rewrite Hparent.
  print_step.
  cbn [len]. rewrite io_bind_lift_Ret, length_map, <- (Forall2_length _ _ _ Hinfos).
  print_step.
  eapply returns_bind.
  { destruct (logging.filters (logging.store σ l)) as [|f fs]; [apply returns_mret|].
    change (f :: fs) with ([f] ++ fs) at 1. cbn [truthy_data type_names map app].
    rewrite bool_decide_eq_true_2 by done.
    change (List (Str (type_name f) :: map (λ f0, Str (type_name f0)) fs))
      with (type_names (f :: fs)).
    rewrite join_data_type_names, io_bind_lift_Ret. apply returns_print. }
  eapply returns_bind.
  { destruct Hinfos as [|h info hs infos' Hinfo Hrest]; [apply returns_mret|].
    cbn [truthy_data map]. rewrite bool_decide_eq_true_2 by done.
    cbn [iter_data]. rewrite io_bind_lift_Ret.
    apply (handler_lines_return σ (h :: hs) (info :: infos') 1). by constructor. }
  apply returns_print.
Qed.

(** C6 (as amended).  The logger inspector's mapping holds the parent's
    name when the logger has a parent and [None] when it has none; the
    ["root"] sentinel is not in the mapping: the all-loggers report
    substitutes it when it prints the parent line. *)
Theorem logger_info_parent fuel σ l name :
  logger_inspectable fuel σ l = true →
  ∃ info out,
    get_logger_info fuel σ l = Ret info ∧
    info !! "parent" =
      Some match logging.parent (logging.store σ l) with
           | Some p => Str (logging.name (logging.store σ p))
           | None => None_
           end ∧
    returns (show_logger_entry fuel σ name l) out tt ∧
    (logging.parent (logging.store σ l) = None →
     out !! 5%nat = Some "  Parent: root").
Proof.
  intros Hok. destruct (logger_inspectable_spec _ _ _ Hok) as (Heff & infos & Hinfos).
  apply map_outcome_Ret in Hinfos.
  eexists _, (logger_summary fuel σ name l). split; [|split; [|split]].
  - unfold get_logger_info. rewrite Heff, Hinfos. reflexivity.
  - by rewrite lookup_insert_eq.
  - by apply show_logger_entry_returns.
  - intros Hnone. unfold logger_summary, parent_label. by rewrite Hnone.
Qed.


(** C3.  The all-loggers report prints one block per registry entry, in
    strictly ascending order of the names; the block of a placeholder is
    its tagged name alone, the block of a real logger is its full summary. *)
Theorem all_loggers_report_sorted fuel σ :
  NoDup (map fst (logging.loggerDict σ)) →
  registry_inspectable fuel σ = true →
  ∃ entries,
    entries ≡ₚ logging.loggerDict σ ∧
    StronglySorted (key_lt_strict fst) entries ∧
    show_all_loggers fuel σ =
      IO (["📚 ALL LOGGERS"; str_repeat "=" 50] ++
          match entries with
          | [] => ["No named loggers configured."]
          | _ => ["Total loggers: " +:+ pretty (Z.of_nat (length entries)); ""]
                 ++ concat (map (entry_report fuel σ) entries)
          end) (Ret tt).
Proof.
  intros Hnodup Hok.
  exists (sorted_items (logging.loggerDict σ)).
  split; [apply sorted_perm|]. split; [by apply sorted_strict|].
  unfold show_all_loggers, registry_inspectable in *.
  destruct (logging.loggerDict σ) as [|entry rest] eqn:Hdict; [reflexivity|].
  rewrite <- Hdict in *.
  destruct (sorted_items (logging.loggerDict σ)) as [|e es] eqn:Hsorted.
  { pose proof (sorted_perm fst (logging.loggerDict σ)) as Hperm.
    unfold sorted_items in Hsorted. rewrite Hsorted, Hdict in Hperm.
    by apply Permutation_nil_cons in Hperm. }
  rewrite <- Hsorted. clear e es Hsorted.
  apply (returns_print_bind _ _ _ tt). apply (returns_print_bind _ _ _ tt).
  apply (returns_print_bind _ _ _ tt). apply (returns_print_bind _ _ _ tt).
  apply returns_for_each. intros [name [|l]] Hin; unfold entry_report; simpl.
  - apply returns_print.
  - apply show_logger_entry_returns.
    rewrite forallb_forall in Hok.
    apply (Hok (name, logging.ALogger l)).
    apply list_elem_of_In. by rewrite <- (sorted_perm fst (logging.loggerDict σ)).
Qed.

End all_loggers.

Lemma logger_info_parent_witness :
  ∃ info out,
    get_logger_info 1 fresh 0%nat = Ret info ∧
    info !! "parent" = Some None_ ∧
    returns (show_logger_entry 1 fresh "root" 0%nat) out tt ∧
    out !! 5%nat = Some "  Parent: root".
Proof.
  destruct (logger_info_parent 1 fresh 0%nat "root")
    as (info & out & Hinfo & Hparent & Hout & Hline); [vm_compute; reflexivity|].
  exists info, out. repeat split; [exact Hinfo|exact Hparent|exact Hout|].
  apply Hline. reflexivity.
Defined.

Lemma all_loggers_report_sorted_witness :
  ∃ entries,
    entries ≡ₚ logging.loggerDict example ∧
    StronglySorted (key_lt_strict fst) entries ∧
    show_all_loggers 4 example =
      IO (["📚 ALL LOGGERS"; str_repeat "=" 50] ++
          match entries with
          | [] => ["No named loggers configured."]
          | _ => ["Total loggers: " +:+ pretty (Z.of_nat (length entries)); ""]
                 ++ concat (map (entry_report 4 example) entries)
          end) (Ret tt).
Proof.
  apply (all_loggers_report_sorted 4 example).
  - apply (bool_decide_unpack _). vm_compute. exact I.
  - vm_compute. reflexivity.
Defined.

(** C6 as stated fails: the root logger has no parent, and the mapping the
    inspector returns for it holds [None], not ["root"]. *)
Lemma logger_info_parent_is_None_not_root :
  logging.parent (logging.store fresh (logging.root fresh)) = None ∧
  ∃ info, get_logger_info 1 fresh (logging.root fresh) = Ret info ∧
    info !! "parent" = Some None_ ∧
    info !! "parent" ≠ Some (Str "root").
Proof.
  split; [reflexivity|]. eexists. split; [reflexivity|].
  split; [by vm_compute|]. vm_compute. discriminate.
Qed.

(** ** The hierarchy report *)

Lemma for_each_result {A} (xs : list A) (body : A → io unit) :
  result (for_each xs body) = Ret tt ↔ ∀ x, x ∈ xs → result (body x) = Ret tt.
Proof.
  induction xs as [|x xs IH]; simpl.
  - split; [by intros _ y ?%elem_of_nil|done].
  - unfold mbind, io_bind. destruct (result (body x)) as [[]| |] eqn:Hx; simpl.
    + rewrite IH. split.
      * intros Hxs y [->|Hy]%elem_of_cons; auto.
      * intros Hall y Hy. apply Hall. by right.
    + split; [done|]. intros Hall. specialize (Hall x ltac:(by left)). congruence.
    + split; [done|]. intros Hall. specialize (Hall x ltac:(by left)). congruence.
Qed.

Lemma for_each_printed {A} (xs : list A) (body : A → io unit) :
  result (for_each xs body) = Ret tt →
  printed (for_each xs body) = concat (map (λ x, printed (body x)) xs).
Proof.
  induction xs as [|x xs IH]; simpl; [done|].
  unfold mbind, io_bind. destruct (result (body x)) as [[]| |]; simpl; [|done..].
  intros Hxs. by rewrite IH.
Qed.

Lemma for_each_ext_in {A} (xs : list A) (body body' : A → io unit) :
  (∀ x, x ∈ xs → body x = body' x) → for_each xs body = for_each xs body'.
Proof.
  induction xs as [|x xs IH]; intros Heq; simpl; [done|].
  rewrite (Heq x) by (by left). rewrite IH; [done|].
  intros y Hy. apply Heq. by right.
Qed.

(** Child discovery: the loop collects exactly the registered loggers whose
    parent reference is the node. *)
Lemma find_children_spec σ logger c :
  c ∈ find_children σ logger ↔
  registered σ c ∧ logging.parent (logging.store σ c) = Some logger.
Proof.
  unfold find_children, registered.
  match goal with |- context [foldl ?f [] _] => set (step := f) end.
  assert (Hgen : ∀ dict acc,
    c ∈ foldl step acc dict ↔
    c ∈ acc ∨ ((∃ name, (name, logging.ALogger c) ∈ dict) ∧
               logging.parent (logging.store σ c) = Some logger)).
  { induction dict as [|[name [|c']] dict IH]; intros acc; simpl.
    - split; [auto|]. intros [?|[[? ?%elem_of_nil] _]]; done.
    - rewrite IH. split.
      + intros [?|[[n Hn] ?]]; [auto|]. right. split; [|done]. exists n. by right.
      + intros [?|[[n Hn] ?]]; [auto|]. right. split; [|done]. exists n.
        apply elem_of_cons in Hn as [[=]|]; done.
    - rewrite IH. case_bool_decide as Hp.
      + rewrite elem_of_app, list_elem_of_singleton. split.
        * intros [[?| ->]|[[n Hn] ?]]; [auto| |].
          -- right. split; [|done]. exists name. by left.
          -- right. split; [|done]. exists n. by right.
        * intros [?|[[n Hn] ?]]; [auto|].
          apply elem_of_cons in Hn as [[= -> ->]|Hn]; [auto|].
          right. split; [|done]. by exists n.
      + split.
        * intros [?|[[n Hn] ?]]; [auto|]. right. split; [|done]. exists n. by right.
        * intros [?|[[n Hn] ?]]; [auto|].
          apply elem_of_cons in Hn as [[= -> ->]|Hn]; [done|].
          right. split; [|done]. by exists n. }
  rewrite Hgen. split; [|auto]. by intros [?%elem_of_nil|].
Qed.

Lemma sorted_children_spec σ logger c :
  c ∈ sorted_children σ logger ↔
  registered σ c ∧ logging.parent (logging.store σ c) = Some logger.
Proof.
  unfold sorted_children. rewrite sorted_perm. apply find_children_spec.
Qed.

Lemma print_logger_tree_unfold fuel σ logger indent :
  print_logger_tree (S fuel) σ logger indent =
    (effective ← lift (logging.getEffectiveLevel (S fuel) σ (Some logger));
     print (tree_line σ logger indent effective);;
     for_each (sorted_children σ logger)
       (λ child, print_logger_tree fuel σ child (S indent))).
Proof. reflexivity. Qed.

(** *** Termination of the tree printer *)

Lemma parent_chain_functional σ l n m :
  parent_chain σ l n → parent_chain σ l m → n = m.
Proof.
  intros Hn. revert m. induction Hn as [l Hl|l p n Hl _ IH]; intros m Hm.
  - inversion Hm; congruence.
  - inversion Hm as [|? p' m' Hl' Hp']; subst; [congruence|].
    f_equal. apply IH. congruence.
Qed.

(** The effective level resolves within one step more than the chain. *)
Lemma getEffectiveLevel_chain σ l n fuel :
  parent_chain σ l n → (n < fuel)%nat →
  ∃ z, logging.getEffectiveLevel fuel σ (Some l) = Ret z.
Proof.
  intros Hn. revert fuel. induction Hn as [l Hl|l p n Hl _ IH]; intros fuel Hfuel.
  - destruct fuel as [|fuel]; [lia|]. simpl. rewrite Hl.
    destruct (negb _); [by eexists|]. destruct fuel; by eexists.
  - destruct fuel as [|fuel]; [lia|]. simpl. rewrite Hl.
    destruct (negb _); [by eexists|]. apply IH. lia.
Qed.

Lemma getEffectiveLevel_mono fuel σ logger z :
  logging.getEffectiveLevel fuel σ logger = Ret z →
  logging.getEffectiveLevel (S fuel) σ logger = Ret z.
Proof.
  revert logger. induction fuel as [|fuel IH]; intros [l|]; try done.
  intros Hz. simpl in Hz. change (logging.getEffectiveLevel (S (S fuel)) σ (Some l))
    with (if negb (logging.level (logging.store σ l) =? 0)
          then Ret (logging.level (logging.store σ l))
          else logging.getEffectiveLevel (S fuel) σ
                 (logging.parent (logging.store σ l))).
  destruct (negb _); [done|]. by apply IH.
Qed.

(** More fuel does not change what a finished run printed. *)
Lemma print_logger_tree_mono fuel σ logger indent :
  result (print_logger_tree fuel σ logger indent) = Ret tt →
  print_logger_tree (S fuel) σ logger indent = print_logger_tree fuel σ logger indent.
Proof.
  revert logger indent. induction fuel as [|fuel IH]; intros logger indent; [done|].
  rewrite (print_logger_tree_unfold (S fuel)), (print_logger_tree_unfold fuel).
  destruct (logging.getEffectiveLevel (S fuel) σ (Some logger)) as [eff| |] eqn:Heff;
    [|done..].
  rewrite (getEffectiveLevel_mono _ _ _ _ Heff).
  rewrite !io_bind_lift_Ret, !io_bind_print. cbn [result].
  intros Hres. f_equal; [f_equal|]; f_equal; apply for_each_ext_in;
    intros c Hc; apply IH; by eapply for_each_result in Hres.
Qed.

Lemma print_logger_tree_mono_le fuel fuel' σ logger indent :
  (fuel ≤ fuel')%nat →
  result (print_logger_tree fuel σ logger indent) = Ret tt →
  print_logger_tree fuel' σ logger indent = print_logger_tree fuel σ logger indent.
Proof.
  induction 1 as [|fuel' _ IH]; [done|]. intros Hres.
  rewrite print_logger_tree_mono; [by apply IH|]. by rewrite IH.
Qed.

(** Every registered logger has a chain no longer than some bound. *)
Lemma chains_bounded σ :
  (∀ c, registered σ c → ∃ n, parent_chain σ c n) →
  ∃ bound, ∀ c, registered σ c → ∃ n, (n ≤ bound)%nat ∧ parent_chain σ c n.
Proof.
  unfold registered. generalize (logging.loggerDict σ) as dict.
  induction dict as [|[name entry] dict IH]; intros Hall.
  - exists 0%nat. by intros c [? ?%elem_of_nil].
  - destruct IH as [bound Hbound].
    { intros c [n Hn]. apply Hall. exists n. by right. }
    destruct entry as [|c'].
    + exists bound. intros c [n Hn].
      apply elem_of_cons in Hn as [[=]|Hn]. apply Hbound. by exists n.
    + destruct (Hall c') as [n' Hn']; [exists name; by left|].
      exists (bound `max` n')%nat. intros c [n Hn].
      apply elem_of_cons in Hn as [[= -> ->]|Hn].
      * exists n'. split; [lia|done].
      * destruct (Hbound c) as (m & ? & ?); [by exists n|].
        exists m. split; [lia|done].
Qed.

(** A node whose chain has length [n] is printed with any fuel that, added
    to [n], covers twice the longest chain. *)
Lemma print_logger_tree_returns σ bound :
  (∀ c, registered σ c → ∃ n, (n ≤ bound)%nat ∧ parent_chain σ c n) →
  ∀ fuel logger n indent,
    parent_chain σ logger n → (n ≤ bound)%nat → (2 * bound + 1 ≤ fuel + n)%nat →
    result (print_logger_tree fuel σ logger indent) = Ret tt.
Proof.
  intros Hbound. induction fuel as [|fuel IH]; intros logger n indent Hn Hle Hfuel;
    [lia|].
  rewrite print_logger_tree_unfold.
  destruct (getEffectiveLevel_chain σ logger n (S fuel) Hn) as [eff ->]; [lia|].
  rewrite io_bind_lift_Ret, io_bind_print. cbn [result].
  apply for_each_result. intros c [Hreg Hparent]%sorted_children_spec.
  destruct (Hbound c Hreg) as (m & Hm & Hchain).
  assert (m = S n) as ->.
  { eapply parent_chain_functional; [done|]. by econstructor. }
  apply (IH c (S n)); [done|done|lia].
Qed.

(** The first line of a subtree that was printed is the line of its node. *)
Lemma print_logger_tree_head fuel σ logger indent :
  result (print_logger_tree fuel σ logger indent) = Ret tt →
  ∃ effective below,
    print_logger_tree fuel σ logger indent =
      IO (tree_line σ logger indent effective :: below) (Ret tt).
Proof.
  destruct fuel as [|fuel]; [done|]. rewrite print_logger_tree_unfold.
  destruct (logging.getEffectiveLevel (S fuel) σ (Some logger)) as [eff| |];
    [|done..].
  rewrite io_bind_lift_Ret, io_bind_print. cbn [result printed].
  intros Hres. exists eff. eexists. by rewrite Hres.
Qed.

(** C2.  The tree printer's children of a node are exactly the registered
    loggers whose parent reference is that node, whatever their names, and
    it visits them in ascending order of their names.  When the parent
    links of the node and of the registered loggers end, the printer
    returns, from some amount of fuel on: it has printed the node's line
    followed by the subtrees of these children and of no other logger, one
    level deeper, each subtree starting with the line of its child.  On any
    run that returns the output has this shape.  So a logger whose parent
    is the root is printed as a direct child of the root even under a
    dotted name. *)
Theorem hierarchy_children_by_identity (σ : logging.state) (A : logging.ref) :
  (∀ B, B ∈ sorted_children σ A ↔
        registered σ B ∧ logging.parent (logging.store σ B) = Some A) ∧
  StronglySorted (key_le (λ x, logging.name (logging.store σ x)))
                 (sorted_children σ A) ∧
  (∀ n,
     parent_chain σ A n →
     (∀ c, registered σ c → ∃ m, parent_chain σ c m) →
     ∃ fuel0, ∀ fuel indent, (fuel0 ≤ fuel)%nat →
       ∃ effective,
         print_logger_tree (S fuel) σ A indent =
           IO (tree_line σ A indent effective ::
               concat (map (λ B, printed (print_logger_tree fuel σ B (S indent)))
                           (sorted_children σ A))) (Ret tt) ∧
         Forall (λ B, ∃ effective_B below,
                   print_logger_tree fuel σ B (S indent) =
                     IO (tree_line σ B (S indent) effective_B :: below) (Ret tt))
                (sorted_children σ A)) ∧
  (∀ fuel indent,
     result (print_logger_tree (S fuel) σ A indent) = Ret tt →
     ∃ effective,
       logging.getEffectiveLevel (S fuel) σ (Some A) = Ret effective ∧
       printed (print_logger_tree (S fuel) σ A indent) =
         tree_line σ A indent effective ::
         concat (map (λ B, printed (print_logger_tree fuel σ B (S indent)))
                     (sorted_children σ A))) ∧
  (∀ name B,
     (name, logging.ALogger B) ∈ logging.loggerDict σ →
     logging.parent (logging.store σ B) = Some (logging.root σ) →
     B ∈ sorted_children σ (logging.root σ)).
Proof.
  split; [apply sorted_children_spec|]. split; [apply sorted_sorted|].
  split; [|split].
  - intros n Hn Hall.
    destruct (chains_bounded σ Hall) as [bound Hbound].
    set (big := (bound `max` n)%nat).
    assert (Hbig : ∀ c, registered σ c → ∃ m, (m ≤ big)%nat ∧ parent_chain σ c m).
    { intros c Hc. destruct (Hbound c Hc) as (m & ? & ?). exists m. split; [lia|done]. }
    exists (2 * big + 1)%nat. intros fuel indent Hfuel.
    assert (result (print_logger_tree (S fuel) σ A indent) = Ret tt) as Hres.
    { apply (print_logger_tree_returns σ big Hbig (S fuel) A n indent Hn); lia. }
    revert Hres. rewrite print_logger_tree_unfold.
    destruct (logging.getEffectiveLevel (S fuel) σ (Some A)) as [eff| |];
      [|done..].
    rewrite io_bind_lift_Ret, io_bind_print. cbn [result printed].
    intros Hres. exists eff. split.
    + rewrite Hres. do 2 f_equal. by apply for_each_printed.
    + apply Forall_forall. intros B HB. apply print_logger_tree_head.
      by eapply for_each_result in Hres.
  - intros fuel indent. rewrite print_logger_tree_unfold.
    destruct (logging.getEffectiveLevel (S fuel) σ (Some A)) as [eff| |];
      [|done..].
    rewrite io_bind_lift_Ret, io_bind_print. cbn [result printed].
    intros Hres. exists eff. split; [done|]. f_equal. by apply for_each_printed.
  - intros name B Hin Hparent. apply sorted_children_spec. split; [by exists name|done].
Qed.

Lemma hierarchy_children_by_identity_witness :
  1%nat ∈ sorted_children example (logging.root example) ∧
  ∃ fuel0, ∀ fuel indent, (fuel0 ≤ fuel)%nat →
    ∃ effective,
      print_logger_tree (S fuel) example (logging.root example) indent =
        IO (tree_line example (logging.root example) indent effective ::
            concat (map (λ B, printed (print_logger_tree fuel example B (S indent)))
                        (sorted_children example (logging.root example)))) (Ret tt) ∧
      Forall (λ B, ∃ effective_B below,
                print_logger_tree fuel example B (S indent) =
                  IO (tree_line example B (S indent) effective_B :: below) (Ret tt))
             (sorted_children example (logging.root example)).
Proof.
  pose proof (hierarchy_children_by_identity example (logging.root example))
    as (_ & _ & Hprinted & _ & Hroot).
  split.
  - apply (Hroot "a.b" 1%nat); [apply list_elem_of_here|reflexivity].
  - apply (Hprinted 0%nat); [by apply chain_end|].
    intros c [name Hc].
    repeat (apply elem_of_cons in Hc as [Hc|Hc]; [simplify_eq|]).
    + exists 1%nat. eapply chain_step; [reflexivity|]. by apply chain_end.
    + exists 2%nat. eapply chain_step; [reflexivity|].
      eapply chain_step; [reflexivity|]. by apply chain_end.
    + exists 1%nat. eapply chain_step; [reflexivity|]. by apply chain_end.
    + by apply elem_of_nil in Hc.
Defined.

(** C9.  When the parent links from the root and from every registered
    logger are acyclic, the hierarchy report terminates: from some amount of
    fuel on it returns, always with the same output. *)
Theorem hierarchy_report_terminates (σ : logging.state) :
  (∃ n, parent_chain σ (logging.root σ) n) →
  (∀ c, registered σ c → ∃ n, parent_chain σ c n) →
  ∃ fuel0 out, ∀ fuel, (fuel0 ≤ fuel)%nat →
    show_logger_hierarchy fuel σ = IO out (Ret tt).
Proof.
  intros [n0 Hroot] Hall.
  destruct (chains_bounded σ Hall) as [bound Hbound].
  set (big := (bound `max` n0)%nat).
  assert (Hbig : ∀ c, registered σ c → ∃ n, (n ≤ big)%nat ∧ parent_chain σ c n).
  { intros c Hc. destruct (Hbound c Hc) as (n & ? & ?). exists n. split; [lia|done]. }
  pose proof (print_logger_tree_returns σ big Hbig (2 * big + 1)%nat
                (logging.root σ) n0 0%nat Hroot ltac:(lia) ltac:(lia)) as Hres.
  exists (2 * big + 1)%nat.
  exists (["🌳 LOGGER HIERARCHY"; str_repeat "=" 50]
            ++ printed (print_logger_tree (2 * big + 1) σ (logging.root σ) 0) ++ [""]).
  intros fuel Hfuel. unfold show_logger_hierarchy.
  rewrite (print_logger_tree_mono_le _ _ _ _ _ Hfuel Hres).
  destruct (print_logger_tree (2 * big + 1) σ (logging.root σ) 0) as [out res].
  simpl in Hres. subst res. reflexivity.
Qed.

Lemma hierarchy_report_terminates_witness :
  ∃ fuel0 out, ∀ fuel, (fuel0 ≤ fuel)%nat →
    show_logger_hierarchy fuel example = IO out (Ret tt).
Proof.
  apply (hierarchy_report_terminates example).
  - exists 0%nat. by apply chain_end.
  - intros c [name Hc].
    repeat (apply elem_of_cons in Hc as [Hc|Hc]; [simplify_eq|]).
    + exists 1%nat. eapply chain_step; [reflexivity|]. by apply chain_end.
    + exists 2%nat. eapply chain_step; [reflexivity|].
      eapply chain_step; [reflexivity|]. by apply chain_end.
    + exists 1%nat. eapply chain_step; [reflexivity|]. by apply chain_end.
    + by apply elem_of_nil in Hc.
Defined.

(** ** The handler summary report *)

Lemma foldl_snoc_pairs {A B} (f : B → A) (acc : list A) (xs : list B) :
  foldl (λ acc x, acc ++ [f x]) acc xs = acc ++ map f xs.
Proof.
  revert acc. induction xs as [|x xs IH]; intros acc; simpl.
  - by rewrite app_nil_r.
  - by rewrite IH, <- app_assoc.
Qed.

(** The collected handlers: those of the root, then those of every real
    logger in registry order; placeholders contribute none. *)
Lemma collect_handlers_spec σ :
  collect_handlers σ =
    map (λ h, ("root", h)) (logging.handlers (logging.store σ (logging.root σ)))
    ++ concat (map (λ entry : string * logging.registered,
                      match entry.2 with
                      | logging.ALogger l =>
                          map (λ h, (entry.1, h)) (logging.handlers (logging.store σ l))
                      | logging.PlaceHolder => []
                      end) (logging.loggerDict σ)).
Proof.
  unfold collect_handlers. rewrite foldl_snoc_pairs. rewrite app_nil_l.
  match goal with
  | |- foldl ?f ?a _ = ?b ++ _ => change a with b; set (step := f); generalize b as acc
  end.
  induction (logging.loggerDict σ) as [|[name [|l]] dict IH]; intros acc; simpl.
  - by rewrite app_nil_r.
  - apply IH.
  - rewrite foldl_snoc_pairs, IH. by rewrite <- app_assoc.
Qed.

Lemma collect_handlers_length σ :
  length (collect_handlers σ) =
    (length (logging.handlers (logging.store σ (logging.root σ)))
     + sum_list_with (handler_count σ) (logging.loggerDict σ))%nat.
Proof.
  rewrite collect_handlers_spec, length_app, length_map. f_equal.
  induction (logging.loggerDict σ) as [|[name [|l]] dict IH]; simpl; [done|done|].
  rewrite length_app, length_map, IH. done.
Qed.

Lemma group_handlers_snoc all member :
  group_handlers (all ++ [member]) =
    <[type_name member.2 :=
        default [] (group_handlers all !! type_name member.2) ++ [member]]>
      (group_handlers all).
Proof.
  unfold group_handlers. rewrite foldl_app. simpl. destruct member as [name h]. simpl.
  set (types := foldl _ ∅ all).
  destruct (types !! type_name h) as [ms|] eqn:Hty.
  - by rewrite Hty.
  - rewrite lookup_insert_eq, ?Hty. simpl. by rewrite insert_insert_eq.
Qed.

(** A group holds the collected handlers of its kind, in collection order,
    and a kind without handlers has no group. *)
Lemma group_handlers_lookup all ty :
  group_handlers all !! ty =
    match filter (λ m : string * value, type_name m.2 = ty) all with
    | [] => None
    | ms => Some ms
    end.
Proof.
  induction all as [|member all IH] using rev_ind; [done|].
  rewrite group_handlers_snoc, filter_app.
  destruct (decide (type_name member.2 = ty)) as [<-|Hne].
  - rewrite lookup_insert_eq, IH, filter_cons_True, filter_nil by done.
    by destruct (filter _ all).
  - rewrite lookup_insert_ne, IH, filter_cons_False, filter_nil, app_nil_r by done.
    done.
Qed.

Lemma group_handlers_total all :
  sum_list_with (λ g : string * list (string * value), length g.2)
                (map_to_list (group_handlers all)) = length all.
Proof.
  induction all as [|member all IH] using rev_ind; [done|].
  rewrite group_handlers_snoc, length_app. simpl.
  set (types := group_handlers all) in *. set (ty := type_name member.2).
  destruct (types !! ty) as [ms|] eqn:Hty; simpl.
  - rewrite <- insert_delete_eq.
    rewrite map_to_list_insert by apply lookup_delete_eq.
    rewrite <- IH, <- (map_to_list_delete types ty ms Hty). simpl.
    rewrite length_app. simpl. lia.
  - rewrite map_to_list_insert by done. simpl. lia.
Qed.

Lemma summary_groups_spec σ ty members :
  (ty, members) ∈ summary_groups σ ↔
  members ≠ [] ∧
  members = filter (λ m : string * value, type_name m.2 = ty) (collect_handlers σ).
Proof.
  unfold summary_groups, sorted_items. rewrite sorted_perm.
  rewrite elem_of_map_to_list, group_handlers_lookup.
  destruct (filter _ (collect_handlers σ)) as [|m ms].
  - split; [done|]. by intros [? ->].
  - split; [by intros [= <-]|]. by intros [_ ->].
Qed.

Lemma member_lines_return (members : list (string * value)) :
  (∀ m, m ∈ members → hasattr m.2 "level" = true) →
  returns
    (for_each members (λ '(logger_name, handler),
       lv ← lift (attr handler "level");
       let level := logging.getLevelName lv in
       print ("  └─ Logger: " +:+ logger_name +:+ ", Level: " +:+ str level)))
    (concat (map (λ m, [member_line m]) members)) tt.
Proof.
  intros Hall. apply returns_for_each. intros [logger_name handler] Hm.
  specialize (Hall _ Hm). unfold hasattr in Hall.
  apply bool_decide_eq_true in Hall as [lv Hlv]. cbn [snd] in Hlv.
  unfold member_line, getattr. cbn [fst snd]. rewrite (attr_Some _ _ _ Hlv), Hlv.
  rewrite io_bind_lift_Ret. apply returns_print.
Qed.

Lemma concat_singletons {A B} (f : A → B) (xs : list A) :
  concat (map (λ x, [f x]) xs) = map f xs.
Proof. induction xs as [|x xs IH]; simpl; [done|]. by rewrite IH. Qed.

(** C4.  The groups of the handler summary are in strictly ascending order
    of the kind names; a group holds the collected handlers of its kind; the
    group sizes add up to the number of handlers on the root plus those on
    every real registered logger, placeholders counting for nothing; and
    this is the total and these are the groups that the report prints. *)
Theorem handler_summary_groups_and_total (σ : logging.state) :
  StronglySorted (key_lt_strict fst) (summary_groups σ) ∧
  (∀ ty members,
     (ty, members) ∈ summary_groups σ ↔
     members ≠ [] ∧
     members = filter (λ m : string * value, type_name m.2 = ty) (collect_handlers σ)) ∧
  sum_list_with (λ g : string * list (string * value), length g.2) (summary_groups σ)
    = (length (logging.handlers (logging.store σ (logging.root σ)))
       + sum_list_with (handler_count σ) (logging.loggerDict σ))%nat ∧
  (forallb (λ m : string * value, hasattr m.2 "level") (collect_handlers σ) = true →
   show_handler_summary σ =
     IO ([ "🔧 HANDLER SUMMARY"; str_repeat "=" 50;
           "Total handlers: "
             +:+ pretty (Z.of_nat
                   (length (logging.handlers (logging.store σ (logging.root σ)))
                    + sum_list_with (handler_count σ) (logging.loggerDict σ)));
           "Handler types: " +:+ pretty (Z.of_nat (length (summary_groups σ)));
           "" ]
         ++ concat (map group_report (summary_groups σ))) (Ret tt)).
Proof.
  split; [|split; [|split]].
  - apply sorted_strict. apply NoDup_fst_map_to_list.
  - apply summary_groups_spec.
  - unfold summary_groups, sorted_items.
    rewrite sorted_perm, group_handlers_total. apply collect_handlers_length.
  - intros Hlevels. rewrite forallb_forall in Hlevels.
    unfold show_handler_summary.
    rewrite collect_handlers_length.
    fold (summary_groups σ).
    assert (size (group_handlers (collect_handlers σ)) = length (summary_groups σ))
      as ->.
    { unfold summary_groups, sorted_items.
      by rewrite sorted_perm, length_map_to_list. }
    do 5 apply (returns_print_bind _ _ _ tt).
    apply returns_for_each. intros [ty members] Hg.
    apply summary_groups_spec in Hg as [_ Hmembers].
    unfold group_report. cbn [fst snd].
    apply returns_print_bind.
    eapply returns_bind; [|apply returns_print].
    rewrite <- concat_singletons. apply member_lines_return.
    intros m Hm. apply Hlevels. apply list_elem_of_In.
    rewrite Hmembers in Hm. by apply list_elem_of_filter in Hm as [_ ?].
Qed.

Lemma handler_summary_groups_and_total_witness :
  show_handler_summary example =
    IO ([ "🔧 HANDLER SUMMARY"; str_repeat "=" 50;
          "Total handlers: "
            +:+ pretty (Z.of_nat
                  (length (logging.handlers (logging.store example (logging.root example)))
                   + sum_list_with (handler_count example) (logging.loggerDict example)));
          "Handler types: " +:+ pretty (Z.of_nat (length (summary_groups example)));
          "" ]
        ++ concat (map group_report (summary_groups example))) (Ret tt).
Proof.
  apply (proj2 (proj2 (proj2 (handler_summary_groups_and_total example)))).
  vm_compute. reflexivity.
Defined.

(** ** The entry point *)

Lemma prints_bind {A B} P (m : io A) (f : A → io B) :
  prints P m → (∀ a, prints P (f a)) → prints P (m ≫= f).
Proof.
  unfold prints, mbind, io_bind. intros Hm Hf.
  destruct (result m) as [a| |]; simpl; [|done..].
  apply Forall_app. split; [done|apply Hf].
Qed.

Lemma prints_print P s : P s → prints P (print s).
Proof. intros Hs. by repeat constructor. Qed.

Lemma prints_lift {A} P (m : outcome A) : prints P (lift m).
Proof. constructor. Qed.

Lemma prints_mret {A} P (a : A) : prints P (mret a).
Proof. constructor. Qed.

Lemma prints_for_each {A} P (xs : list A) (body : A → io unit) :
  (∀ x, prints P (body x)) → prints P (for_each xs body).
Proof.
  intros Hbody. induction xs as [|x xs IH]; simpl; [constructor|].
  apply prints_bind; [apply Hbody|done].
Qed.

(** A line that does not start with the first byte of the titles' emoji is
    not one of the skipped titles. *)
Lemma plain_start_not_title c prefix rest :
  Ascii.N_of_ascii c ≠ 240%N → (String c prefix +:+ rest) ∉ skipped_titles.
Proof.
  intros Hc Hin. change (String c prefix +:+ rest) with (String c (prefix +:+ rest)) in Hin.
  unfold skipped_titles in Hin.
  repeat (apply elem_of_cons in Hin as [Hin|Hin];
          [injection Hin as -> _; by apply Hc|]).
  by apply elem_of_nil in Hin.
Qed.

Ltac not_title :=
  first [ apply plain_start_not_title; by vm_compute
        | apply (bool_decide_unpack _); vm_compute; exact I ].

Ltac prints_step :=
  first [ apply prints_print; not_title
        | apply prints_lift
        | apply prints_mret
        | apply prints_bind; [|intros ?]
        | apply prints_for_each; intros [? ?]
        | match goal with |- prints _ (if ?b then _ else _) => destruct b end ].

(** The effective level and the logger inspector do not read the registry. *)
Lemma getEffectiveLevel_frame fuel σ dict logger :
  logging.getEffectiveLevel fuel (with_loggerDict σ dict) logger =
  logging.getEffectiveLevel fuel σ logger.
Proof.
  revert logger. induction fuel as [|fuel IH]; intros [l|]; simpl; try done.
  destruct (negb _); [done|]. apply IH.
Qed.

Lemma get_logger_info_frame fuel σ dict logger :
  get_logger_info fuel (with_loggerDict σ dict) logger = get_logger_info fuel σ logger.
Proof. unfold get_logger_info. by rewrite getEffectiveLevel_frame. Qed.

Section entry_point.
Context `{ContainerStr}.

Lemma print_handler_details_no_title handler_info :
  prints (.∉ skipped_titles) (print_handler_details handler_info "    ").
Proof.
  unfold print_handler_details, print_field. repeat prints_step.
Qed.

Lemma show_root_logger_no_title fuel σ :
  prints (.∉ skipped_titles) (show_root_logger fuel σ).
Proof.
  unfold show_root_logger.
  repeat first [apply print_handler_details_no_title | prints_step].
Qed.

Lemma show_logging_config_no_title σ :
  prints (.∉ skipped_titles) (show_logging_config σ).
Proof.
  unfold show_logging_config. cbn [for_each]. repeat prints_step.
Qed.

Lemma show_logging_config_returns σ : result (show_logging_config σ) = Ret tt.
Proof. reflexivity. Qed.

(** C8.  The default entry point prints the banner, then what the global
    configuration report prints, then what the root logger report prints,
    then the completion marker (once the root report has returned), and
    nothing else: no title of the all-loggers, hierarchy or handler-summary
    report is among its lines, and its run does not depend on the registry
    of named loggers, which those three reports read.  Each of the three
    remains callable by itself. *)
Theorem main_runs_config_then_root (fuel : nat) (σ : logging.state) :
  printed (main fuel σ) =
    [ "🔍 PYTHON LOGGING INSPECTOR"; str_repeat "=" 60; "" ]
    ++ printed (show_logging_config σ)
    ++ printed (show_root_logger fuel σ)
    ++ match result (show_root_logger fuel σ) with
       | Ret _ => ["✅ Inspection complete!"]
       | _ => []
       end ∧
  result (show_logging_config σ) = Ret tt ∧
  result (main fuel σ) = result (show_root_logger fuel σ) ∧
  Forall (.∉ skipped_titles) (printed (main fuel σ)) ∧
  (∀ dict, main fuel (with_loggerDict σ dict) = main fuel σ) ∧
  head (printed (show_all_loggers fuel σ)) = Some "📚 ALL LOGGERS" ∧
  head (printed (show_logger_hierarchy fuel σ)) = Some "🌳 LOGGER HIERARCHY" ∧
  head (printed (show_handler_summary σ)) = Some "🔧 HANDLER SUMMARY".
Proof.
  split; [|split; [|split; [|split; [|split; [|repeat split]]]]].
  - unfold main. rewrite !io_bind_print. cbn [printed app]. do 3 f_equal.
    unfold mbind, io_bind. rewrite show_logging_config_returns. cbn [printed].
    f_equal. destruct (show_root_logger fuel σ) as [out [[]| |]]; simpl;
      by rewrite ?app_nil_r.
  - reflexivity.
  - unfold main. rewrite !io_bind_print. cbn [result].
    unfold mbind, io_bind. rewrite show_logging_config_returns. cbn [result].
    by destruct (show_root_logger fuel σ) as [out [[]| |]].
  - change (prints (.∉ skipped_titles) (main fuel σ)). unfold main.
    repeat first [ apply show_logging_config_no_title
                 | apply show_root_logger_no_title | prints_step ].
  - intros dict. unfold main, show_root_logger.
    by rewrite get_logger_info_frame.
Qed.
End entry_point.

(** ** The reports on the example states *)

(** Creating ["a.b"] without ever creating ["a"] leaves a placeholder for
    ["a"] in the registry: the all-loggers report shows ["a"] tagged as a
    placeholder and ["a.b"] with full detail, entries in order of name. *)
Example show_all_loggers_example :
  show_all_loggers 4 example =
    IO [ "📚 ALL LOGGERS"; "==================================================";
         "Total loggers: 4"; "";
         "📍 a (PlaceHolder)";
         "📖 a.b"; "  Level: NOTSET (0)"; "  Effective Level: WARNING (30)";
         "  Propagate: True"; "  Disabled: False"; "  Parent: root";
         "  Handlers: 0"; "";
         "📖 app"; "  Level: INFO (20)"; "  Effective Level: INFO (20)";
         "  Propagate: True"; "  Disabled: False"; "  Parent: root";
         "  Handlers: 1"; "    Handler 1: RotatingFileHandler (Level: NOTSET)"; "";
         "📖 app.db"; "  Level: NOTSET (0)"; "  Effective Level: INFO (20)";
         "  Propagate: False"; "  Disabled: False"; "  Parent: app";
         "  Handlers: 2"; "    Handler 1: StreamHandler (Level: WARNING)";
         "    Handler 2: RotatingFileHandler (Level: NOTSET)"; "" ]
       (Ret tt).
Proof. vm_compute. reflexivity. Qed.

(** ["a.b"] hangs directly under the root: the placeholder ["a"] is no node
    of the tree. *)
Example show_logger_hierarchy_example :
  show_logger_hierarchy 4 example =
    IO [ "🌳 LOGGER HIERARCHY"; "==================================================";
         "├─ root [Level: 30] (1 handlers)";
         "  ├─ a.b [Level: 30] (no handlers)";
         "  ├─ app [Level: 20] (1 handlers)";
         "    ├─ app.db [Level: 20] (2 handlers)"; "" ]
       (Ret tt).
Proof. vm_compute. reflexivity. Qed.

(** With too little fuel the tree printer stops where it ran out. *)
Example show_logger_hierarchy_out_of_fuel :
  result (show_logger_hierarchy 3 example) = OutOfFuel.
Proof. vm_compute. reflexivity. Qed.

Example show_handler_summary_example :
  show_handler_summary example =
    IO [ "🔧 HANDLER SUMMARY"; "==================================================";
         "Total handlers: 4"; "Handler types: 2"; "";
         "📌 RotatingFileHandler (2 instances)";
         "  └─ Logger: app.db, Level: NOTSET";
         "  └─ Logger: app, Level: NOTSET"; "";
         "📌 StreamHandler (2 instances)";
         "  └─ Logger: root, Level: WARNING";
         "  └─ Logger: app.db, Level: WARNING"; "" ]
       (Ret tt).
Proof. vm_compute. reflexivity. Qed.

(** Only the root configured, with one console handler at WARNING and no
    formatter: the default entry point prints the configuration section,
    then the root section with exactly that handler, then the marker. *)
Example main_example :
  main 1 example =
    IO [ "🔍 PYTHON LOGGING INSPECTOR";
         "============================================================"; "";
         "⚙️  LOGGING CONFIGURATION";
         "==================================================";
         "Python version: 3.12.3 (main) [GCC 13.2.0]";
         "Logging module: /usr/lib/python3.12/logging/__init__.py"; "";
         "Global Settings:"; "  Root logger level: WARNING";
         "  Last resort handler: <_StderrHandler <stderr> (WARNING)>";
         "  Capture warnings: None"; "";
         "Level Names:"; "  CRITICAL: 50"; "  ERROR: 40"; "  WARNING: 30";
         "  INFO: 20"; "  DEBUG: 10"; "  NOTSET: 0"; "";
         "🌟 ROOT LOGGER"; "==================================================";
         "Level: WARNING (30)"; "Effective Level: WARNING (30)";
         "Disabled: False"; "Handlers: 1"; "Filters: None"; "";
         "📋 ROOT LOGGER HANDLERS"; "------------------------------";
         "Handler 1:"; "    Type: StreamHandler"; "    Level: WARNING (30)";
         "    Stream: <stderr>"; "    Formatter: None"; "    Filters: None";
         "    Handler ID: 140002"; "    Module: logging"; "";
         "✅ Inspection complete!" ]
       (Ret tt).
Proof. vm_compute. reflexivity. Qed.

(** A handler without a [level] attribute is not a [logging.Handler]: the
    inspector fails on it at its first, unguarded read. *)
Example get_handler_info_without_level :
  get_handler_info fresh stderr = Raise (AttributeError "level").
Proof. reflexivity. Qed.

(** ** More about the handler inspector *)

#[local] Set Warnings "-clear-no-such-hyp".

(** Splits the inspector's run on a handler with [level] and [formatter]
    into its kind branches. *)
Ltac kind_cases σ handler :=
  destruct (isinstance handler logging.FileHandler) eqn:?Hfile;
    [|destruct (isinstance handler logging.StreamHandler) eqn:?Hstream;
      [destruct (truthy (getattr handler "stream" VNone)) eqn:?Htruthy;
        [unfold hasattr, attr;
         destruct (lookup_attr (getattr handler "stream" VNone) "name") eqn:?Hname|]
      |destruct (module_isinstance σ "RotatingFileHandler" handler) eqn:?Hrot;
        [|destruct (module_isinstance σ "TimedRotatingFileHandler" handler) eqn:?Htimed]]].

Lemma filters_step_spec handler :
  inspectable handler = true →
  (if hasattr handler "filters" && truthy (getattr handler "filters" VNone) then
     fs ← iter (getattr handler "filters" VNone); Ret (type_names fs)
   else Ret (List [])) = Ret (List (map Str (filter_names handler))).
Proof.
  unfold inspectable, filter_names. intros H. apply andb_prop in H as [_ H].
  unfold hasattr, getattr.
  destruct (lookup_attr handler "filters") as [fs|]; simpl; [|done].
  destruct (truthy fs); simpl; [|done].
  destruct (iter fs) as [l| |]; try done. simpl.
  unfold type_names. by rewrite map_map.
Qed.




(** X2.  Every mapping of the inspector has the five base keys; besides them it
    has only kind-specific keys, never both a stream and a filename, and for
    a handler of none of the four kinds nothing but the base keys. *)
Theorem get_handler_info_keys (σ : logging.state) (handler : value)
    (info : gmap string data) :
  get_handler_info σ handler = Ret info →
  base_keys ⊆ dom info ∧
  dom info ⊆ base_keys ∪ kind_keys ∧
  ¬ ("stream" ∈ dom info ∧ "filename" ∈ dom info) ∧
  (isinstance handler logging.FileHandler = false →
   isinstance handler logging.StreamHandler = false →
   module_isinstance σ "RotatingFileHandler" handler = false →
   module_isinstance σ "TimedRotatingFileHandler" handler = false →
   dom info = base_keys).
Proof.
  intros Hinfo.
  pose proof (get_handler_info_inspectable _ _ _ Hinfo) as Hok.
  revert Hinfo. inspect Hok.
  assert (Hbase : ∃ base : gmap string data,
    (if truthy fmt
     then <["formatter":=Dict
              (<["style":=Val (getattr fmt "_style" NA)]>
                 (<["datefmt":=Val (getattr fmt "datefmt" NA)]>
                    (<["format":=Val (getattr fmt "_fmt" NA)]> ∅)))]>
            (<["level_num":=Val lv]>
               (<["level":=Val (logging.getLevelName lv)]>
                  (<["type":=Str (type_name handler)]> ∅)))
     else <["formatter":=None_]>
            (<["level_num":=Val lv]>
               (<["level":=Val (logging.getLevelName lv)]>
                  (<["type":=Str (type_name handler)]> ∅)))) = base ∧
    dom base = {[ "type"; "level"; "level_num"; "formatter" ]}).
  { eexists. split; [reflexivity|].
    destruct (truthy fmt); rewrite !dom_insert_L, dom_empty_L; set_solver. }
  destruct Hbase as (base & -> & Hdom).
  unfold base_keys, kind_keys.
  kind_cases σ handler; simpl; intros [= <-];
    rewrite !dom_insert_L, Hdom;
    (split; [set_solver|]); (split; [set_solver|]);
    (split; [|intros; try discriminate; set_solver]);
    intros [Hs Hf]; set_unfold; naive_solver.
Qed.

Lemma get_handler_info_keys_witness :
  ∃ info, get_handler_info fresh console_handler = Ret info ∧
    base_keys ⊆ dom info ∧ dom info ⊆ base_keys ∪ kind_keys.
Proof.
  eexists. split; [reflexivity|].
  pose proof (get_handler_info_keys fresh console_handler _ eq_refl) as (H1 & H2 & _).
  split; [exact H1|exact H2].
Defined.

(** The base fields of a mapping describe the handler: its kind name, its
    level with the level's name, its formatter ([None], or a dict of the
    three formatter fields) and the kind names of its filters. *)
Lemma get_handler_info_base σ handler info :
  get_handler_info σ handler = Ret info →
  info !! "type" = Some (Str (type_name handler)) ∧
  info !! "level" = Some (Val (logging.getLevelName (getattr handler "level" VNone))) ∧
  info !! "level_num" = Some (Val (getattr handler "level" VNone)) ∧
  info !! "filters" = Some (List (map Str (filter_names handler))) ∧
  (info !! "formatter" = Some None_ ∨
   ∃ d f dt st, info !! "formatter" = Some (Dict d) ∧
     d !! "format" = Some f ∧ d !! "datefmt" = Some dt ∧ d !! "style" = Some st).
Proof.
  intros Hinfo.
  pose proof (get_handler_info_inspectable _ _ _ Hinfo) as Hok.
  revert Hinfo. unfold get_handler_info.
  destruct (inspectable_attrs _ Hok) as (lv & fmt & Hlv & Hfmt).
  rewrite (attr_Some _ _ _ Hlv), (attr_Some _ _ _ Hfmt).
  cbn [mbind outcome_bind]. rewrite (filters_step_spec _ Hok).
  assert (getattr handler "level" VNone = lv) as ->
    by (unfold getattr; by rewrite Hlv).
  kind_cases σ handler; simpl; intros [= <-];
    destruct (truthy fmt);
    (split; [by simplify_map_eq|]); (split; [by simplify_map_eq|]);
    (split; [by simplify_map_eq|]); (split; [by simplify_map_eq|]).
  all: try (left; by simplify_map_eq).
  all: right;
    exists (<["style":=Val (getattr fmt "_style" NA)]>
              (<["datefmt":=Val (getattr fmt "datefmt" NA)]>
                 (<["format":=Val (getattr fmt "_fmt" NA)]> ∅))),
           (Val (getattr fmt "_fmt" NA)), (Val (getattr fmt "datefmt" NA)),
           (Val (getattr fmt "_style" NA));
    repeat split; by simplify_map_eq.
Qed.

(** ** More about the handler details printer *)

Section details_printer.
Context `{ContainerStr}.

Lemma print_field_spec info indent key label :
  print_field info indent key label =
    IO (option_list ((λ v, indent +:+ label +:+ format v) <$> info !! key)) (Ret tt).
Proof.
  unfold print_field, contains, item. case_bool_decide as Hk.
  - destruct Hk as [v ->]. by rewrite io_bind_lift_Ret.
  - destruct (info !! key) as [v|] eqn:Hv; [|done]. exfalso. apply Hk. by eexists.
Qed.

(** The printer on a dict of the inspector's shape. *)
Lemma print_handler_details_spec info indent ty lv lvn fmt names :
  info !! "type" = Some ty → info !! "level" = Some lv →
  info !! "level_num" = Some lvn → info !! "formatter" = Some fmt →
  info !! "filters" = Some (List (map Str names)) →
  (fmt = None_ ∨
   ∃ d f dt st, fmt = Dict d ∧
     d !! "format" = Some f ∧ d !! "datefmt" = Some dt ∧ d !! "style" = Some st) →
  print_handler_details (Dict info) indent =
    IO ([ indent +:+ "Type: " +:+ format ty;
          indent +:+ "Level: " +:+ format lv +:+ " (" +:+ format lvn +:+ ")" ]
        ++ detail_lines info indent
        ++ formatter_lines fmt indent
        ++ [filters_line names indent]) (Ret tt).
Proof.
  intros Hty Hlv Hlvn Hfmt Hfs Hshape.
  unfold print_handler_details. simpl as_dict. rewrite io_bind_lift_Ret.
  unfold item. rewrite Hty, Hlv, Hlvn, Hfmt, Hfs.
  rewrite !print_field_spec.
  rewrite !io_bind_lift_Ret. cbv beta.
  assert (Hfilters :
    (if truthy_data (List (map Str names)) then
       names ← lift (join_data ", " (List (map Str names)));
       print (indent +:+ "Filters: " +:+ names)
     else print (indent +:+ "Filters: None")) = IO [filters_line names indent] (Ret tt)).
  { destruct names as [|n ns]; [done|].
    simpl truthy_data. by rewrite join_data_names, io_bind_lift_Ret. }
  rewrite Hfilters.
  assert (Hformatter :
    (if truthy_data fmt then
       print (indent +:+ "Formatter:");;
       f ← lift (getitem fmt "format");
       print (indent +:+ "  Format: " +:+ format f);;
       d ← lift (getitem fmt "datefmt");
       print (indent +:+ "  Date Format: " +:+ format d);;
       s ← lift (getitem fmt "style");
       print (indent +:+ "  Style: " +:+ format s)
     else print (indent +:+ "Formatter: None")) = IO (formatter_lines fmt indent) (Ret tt)).
  { destruct Hshape as [->|(d & f & dt & st & -> & Hf & Hdt & Hst)]; [done|].
    assert (truthy_data (Dict d) = true) as ->.
    { simpl. apply bool_decide_eq_true. intros ->. by rewrite lookup_empty in Hf. }
    unfold getitem, item, formatter_lines. rewrite Hf, Hdt, Hst.
    by rewrite io_bind_print, !io_bind_lift_Ret, !io_bind_print. }
  rewrite Hformatter.
  rewrite !io_bind_print. unfold detail_lines, detail_fields.
  cbn [omap list_omap fst snd].
  unfold mbind, io_bind. cbn [result printed].
  f_equal. simpl.
  repeat (match goal with
          | |- context [info !! ?k] => destruct (info !! k)
          end; simpl); reflexivity.
Qed.

(** X3.  The printer returns on every mapping the inspector returns, whatever the
    handler, and prints its kind name, its level, the detail fields that are
    present in the printer's fixed order, the formatter block and the
    filters line. *)
Theorem inspected_handler_is_printable (σ : logging.state) (handler : value)
    (info : gmap string data) (indent : string) :
  get_handler_info σ handler = Ret info →
  print_handler_details (Dict info) indent =
    IO ([ indent +:+ "Type: " +:+ type_name handler;
          indent +:+ "Level: "
            +:+ str (logging.getLevelName (getattr handler "level" VNone))
            +:+ " (" +:+ str (getattr handler "level" VNone) +:+ ")" ]
        ++ detail_lines info indent
        ++ formatter_lines (default None_ (info !! "formatter")) indent
        ++ [filters_line (filter_names handler) indent]) (Ret tt).
Proof.
  intros Hinfo.
  destruct (get_handler_info_base _ _ _ Hinfo) as (Hty & Hlv & Hlvn & Hfs & Hfmt).
  assert (∃ fmt, info !! "formatter" = Some fmt) as [fmt Hfmt'].
  { destruct Hfmt as [?|(d & ? & ? & ? & ? & _)]; by eexists. }
  rewrite Hfmt'. simpl default.
  rewrite (print_handler_details_spec info indent _ _ _ fmt _ Hty Hlv Hlvn Hfmt' Hfs);
    [done|].
  destruct Hfmt as [Hnone|(d & f & dt & st & Hd & ?)].
  - left. congruence.
  - right. exists d, f, dt, st. split; [congruence|done].
Qed.

End details_printer.

Lemma inspected_handler_is_printable_witness :
  ∃ info, get_handler_info fresh console_handler = Ret info ∧
    result (print_handler_details (Dict info) "  ") = Ret tt.
Proof.
  eexists. split; [reflexivity|].
  rewrite (inspected_handler_is_printable fresh console_handler _ "  " eq_refl).
  reflexivity.
Defined.


(** ** More about the logger inspector *)

Lemma map_outcome_first_failure {A B} (f : A → outcome B) pre x post ys bad :
  map_outcome f pre = Ret ys → f x = bad → (∀ y, bad ≠ Ret y) →
  map_outcome f (pre ++ x :: post) =
    match bad with Ret _ => Ret [] | Raise e => Raise e | OutOfFuel => OutOfFuel end.
Proof.
  revert ys. induction pre as [|p pre IH]; intros ys Hpre Hx Hbad; simpl.
  - rewrite Hx. destruct bad as [y| |]; [exfalso; by apply (Hbad y)|done..].
  - simpl in Hpre. destruct (f p) as [y| |] eqn:Hp; try (simpl in Hpre; congruence).
    destruct (map_outcome f pre) as [ys'| |] eqn:Hys;
      try (simpl in Hpre; congruence).
    cbn [mbind outcome_bind]. rewrite (IH ys' eq_refl Hx Hbad).
    destruct bad as [z| |]; [exfalso; by apply (Hbad z)|done..].
Qed.

Lemma get_logger_info_inspectable fuel σ l info :
  get_logger_info fuel σ l = Ret info → logger_inspectable fuel σ l = true.
Proof.
  unfold get_logger_info, logger_inspectable.
  destruct (logging.getEffectiveLevel fuel σ (Some l)) as [eff| |]; [|done..].
  cbn [mbind outcome_bind].
  destruct (map_outcome _ _) as [infos| |] eqn:Hinfos; [|done..].
  intros _. apply map_outcome_Ret in Hinfos. simpl.
  apply forallb_forall. intros h Hh%list_elem_of_In.
  apply list_elem_of_lookup in Hh as [i Hi].
  destruct (Forall2_lookup_l _ _ _ _ _ Hinfos Hi) as (hinfo & _ & Hh).
  by eapply get_handler_info_inspectable.
Qed.

Lemma get_logger_info_returns fuel σ l :
  logger_inspectable fuel σ l = true → ∃ info, get_logger_info fuel σ l = Ret info.
Proof.
  intros Hok. destruct (logger_inspectable_spec _ _ _ Hok) as (Heff & infos & Hinfos).
  apply map_outcome_Ret in Hinfos. unfold get_logger_info.
  rewrite Heff, Hinfos. by eexists.
Qed.

(** X5.  The logger inspector returns a mapping exactly when the effective level
    resolves within the fuel and every handler is inspectable.  The mapping
    has the ten keys of the source's dict; its handlers field holds one
    mapping of the handler inspector per attached handler, in attachment
    order.  A walk for the effective level that does not finish is what
    the whole call does, and otherwise the first handler the handler
    inspector fails on decides the failure. *)
Theorem get_logger_info_describes (fuel : nat) (σ : logging.state) (l : logging.ref) :
  ((∃ info, get_logger_info fuel σ l = Ret info) ↔ logger_inspectable fuel σ l = true) ∧
  (∀ info, get_logger_info fuel σ l = Ret info →
     dom info = {[ "name"; "level"; "level_num"; "effective_level";
                   "effective_level_num"; "propagate"; "disabled"; "handlers";
                   "filters"; "parent" ]} ∧
     info !! "name" = Some (Str (logging.name (logging.store σ l))) ∧
     info !! "level_num" = Some (Val (VInt (logging.level (logging.store σ l)))) ∧
     info !! "effective_level_num" = Some (Val (VInt (effective_level fuel σ l))) ∧
     ∃ infos,
       info !! "handlers" = Some (List (map Dict infos)) ∧
       Forall2 (λ h hinfo, get_handler_info σ h = Ret hinfo)
               (logging.handlers (logging.store σ l)) infos) ∧
  (logging.getEffectiveLevel fuel σ (Some l) = OutOfFuel →
     get_logger_info fuel σ l = OutOfFuel) ∧
  (∀ pre h post e,
     logging.handlers (logging.store σ l) = pre ++ h :: post →
     (∃ z, logging.getEffectiveLevel fuel σ (Some l) = Ret z) →
     forallb inspectable pre = true →
     get_handler_info σ h = Raise e →
     get_logger_info fuel σ l = Raise e).
Proof.
  split; [|split; [|split]].
  - split; [intros [info Hinfo]; by eapply get_logger_info_inspectable|].
    apply get_logger_info_returns.
  - intros info Hinfo.
    pose proof (get_logger_info_inspectable _ _ _ _ Hinfo) as Hok.
    destruct (logger_inspectable_spec _ _ _ Hok) as (Heff & infos & Hinfos).
    revert Hinfo. unfold get_logger_info.
    rewrite Heff, (proj2 (map_outcome_Ret _ _ _) Hinfos). intros [= <-].
    split; [rewrite !dom_insert_L, dom_empty_L; set_solver|].
    repeat split; [by simplify_map_eq..|].
    exists infos. split; [by simplify_map_eq|done].
  - intros Heff. unfold get_logger_info. by rewrite Heff.
  - intros pre h post e Hhs [z Heff] Hpre Hh.
    unfold get_logger_info. rewrite Heff, Hhs. cbn [mbind outcome_bind].
    assert (∃ ys, map_outcome (get_handler_info σ) pre = Ret ys) as [ys Hys].
    { apply map_outcome_returns. apply Forall_forall. intros x Hx.
      apply get_handler_info_returns.
      rewrite forallb_forall in Hpre. apply Hpre. by apply list_elem_of_In. }
    by rewrite (map_outcome_first_failure _ pre h post ys (Raise e) Hys Hh).
Qed.

Lemma get_logger_info_describes_witness :
  ∃ info, get_logger_info 2 example 3%nat = Ret info ∧
    info !! "name" = Some (Str "app.db").
Proof.
  destruct (proj2 (proj1 (get_logger_info_describes 2 example 3%nat)))
    as [info Hinfo]; [vm_compute; reflexivity|].
  exists info. split; [exact Hinfo|].
  exact (proj1 (proj2 (proj1 (proj2 (get_logger_info_describes 2 example 3%nat))
                         info Hinfo))).
Defined.

(** ** The root logger report *)

Lemma index_middle {A} (pre : list A) (x : A) (post : list A) :
  index (pre ++ x :: post) (Z.of_nat (length pre)) = Ret x.
Proof.
  unfold index.
  destruct (Z.ltb_spec (Z.of_nat (length pre)) 0) as [?|_]; [lia|].
  destruct (Z.ltb_spec (Z.of_nat (length pre)) 0) as [?|_]; [lia|].
  by rewrite Nat2Z.id, list_lookup_middle.
Qed.

Ltac print_line :=
  apply returns_print_bind; cbv beta; rewrite ?io_bind_lift_Ret; cbv beta.

Section root_report.
Context `{ContainerStr}.

Lemma print_inspected_handler σ handler info indent :
  get_handler_info σ handler = Ret info →
  print_handler_details (Dict info) indent = IO (handler_details σ handler indent) (Ret tt).
Proof.
  intros Hinfo. unfold handler_details, inspected. rewrite Hinfo.
  destruct (get_handler_info_base _ _ _ Hinfo) as (Hty & Hlv & Hlvn & Hfs & Hfmt).
  assert (∃ fmt, info !! "formatter" = Some fmt) as [fmt Hfmt'].
  { destruct Hfmt as [?|(d & ? & ? & ? & ? & _)]; by eexists. }
  rewrite Hfmt'. simpl default.
  rewrite (print_handler_details_spec info indent _ _ _ fmt _ Hty Hlv Hlvn Hfmt' Hfs);
    [done|].
  destruct Hfmt as [Hnone|(d & f & dt & st & Hd & ?)].
  - left. congruence.
  - right. exists d, f, dt, st. split; [congruence|done].
Qed.

(** The handlers loop of the root report: block [i] is about the [i]-th
    handler, whose identity token it reads back through [handlers[i - 1]]. *)
Lemma root_handlers_loop σ (all pre rest : list value) infos :
  all = pre ++ rest →
  Forall2 (λ h info, get_handler_info σ h = Ret info) rest infos →
  returns
    (for_each (enumerate (map Dict infos) (Z.of_nat (length pre) + 1))
       (λ '(i, handler_info),
          print ("Handler " +:+ pretty i +:+ ":");;
          print_handler_details handler_info "    ";;
          handler ← lift (index all (i - 1));
          print ("    Handler ID: " +:+ pretty (id handler));;
          (if hasattr handler "__module__" then
             m ← lift (attr handler "__module__"); print ("    Module: " +:+ str m)
           else mret tt);;
          print ""))
    (concat (map (root_handler_block σ) (enumerate rest (Z.of_nat (length pre) + 1)))) tt.
Proof.
  intros Hall Hinfos. revert pre Hall.
  induction Hinfos as [|h info rest infos Hinfo _ IH]; intros pre Hall;
    cbn [for_each enumerate map concat].
  - reflexivity.
  - eapply returns_bind.
    + unfold root_handler_block. cbn [fst snd].
      apply returns_print_bind.
      eapply returns_bind; [by apply print_inspected_handler|].
      replace (Z.of_nat (length pre) + 1 - 1) with (Z.of_nat (length pre)) by lia.
      rewrite Hall, index_middle, io_bind_lift_Ret.
      apply returns_print_bind.
      eapply returns_bind; [|apply returns_print].
      unfold hasattr, attr.
      destruct (lookup_attr h "__module__") as [m|].
      * rewrite bool_decide_eq_true_2 by eauto.
        rewrite io_bind_lift_Ret. apply returns_print.
      * rewrite bool_decide_eq_false_2 by (by intros [? ?]). apply returns_mret.
    + replace (Z.of_nat (length pre) + 1 + 1)
        with (Z.of_nat (length (pre ++ [h])) + 1)
        by (rewrite length_app; simpl; lia).
      apply IH. by rewrite Hall, <- app_assoc.
Qed.

(** X6.  For a root logger that is inspectable, the root report returns and
    prints the root's summary, including a filters line in any case, and
    then either the no-handlers marker or one block per handler, numbered
    from 1 in attachment order, each with the details, the identity token
    and the defining module of that same handler. *)
Theorem show_root_logger_report (fuel : nat) (σ : logging.state) :
  logger_inspectable fuel σ (logging.root σ) = true →
  show_root_logger fuel σ = IO (root_report fuel σ) (Ret tt).
Proof.
  intros Hok. destruct (logger_inspectable_spec _ _ _ Hok) as (Heff & infos & Hinfos).
  unfold show_root_logger, get_logger_info.
  rewrite Heff. apply map_outcome_Ret in Hinfos as Hmap. rewrite Hmap.
  cbn [mbind outcome_bind].
  unfold root_report. cbn [app].
  do 2 apply returns_print_bind. rewrite io_bind_lift_Ret.
  unfold item.
  repeat (rewrite lookup_insert_eq || rewrite lookup_insert_ne by done).
  rewrite !io_bind_lift_Ret. print_line. print_line. print_line.
  cbn [len]. rewrite io_bind_lift_Ret, length_map, <- (Forall2_length _ _ _ Hinfos).
  print_line.
  eapply (returns_bind _ _ [_]).
  { destruct (logging.filters (logging.store σ (logging.root σ))) as [|f fs];
      [apply returns_print|].
    cbn [truthy_data type_names map].
    change (List (Str (type_name f) :: map (λ f0, Str (type_name f0)) fs))
      with (type_names (f :: fs)).
    rewrite join_data_type_names, io_bind_lift_Ret. apply returns_print. }
  apply returns_print_bind.
  destruct Hinfos as [|h info hs infos' Hinfo Hrest].
  - cbn [truthy_data map]. apply returns_print_bind. apply returns_print.
  - cbn [truthy_data map]. rewrite bool_decide_eq_true_2 by done.
    do 2 apply returns_print_bind. cbn [iter_data]. rewrite io_bind_lift_Ret.
    apply (root_handlers_loop σ _ [] (h :: hs) (info :: infos')); [done|].
    by constructor.
Qed.
End root_report.

Lemma show_root_logger_report_witness :
  show_root_logger 1 example = IO (root_report 1 example) (Ret tt).
Proof. apply show_root_logger_report. vm_compute. reflexivity. Defined.

(** ** How the reports fail *)

(** A loop stops at the first iteration that does not return: what the
    iterations before it printed stays printed. *)
Lemma for_each_first_failure {A} (pre : list A) (x : A) (post : list A)
    (body : A → io unit) (out : A → list string) out_x bad :
  (∀ y, y ∈ pre → returns (body y) (out y) tt) →
  body x = IO out_x bad → (∀ a, bad ≠ Ret a) →
  for_each (pre ++ x :: post) body = IO (concat (map out pre) ++ out_x) bad.
Proof.
  intros Hpre Hx Hbad. induction pre as [|p pre IH]; simpl.
  - rewrite Hx. unfold mbind, io_bind. simpl.
    destruct bad as [a| |]; [exfalso; by apply (Hbad a)|done..].
  - rewrite (Hpre p) by (by left). rewrite io_bind_IO_Ret, IH.
    + simpl. by rewrite app_assoc.
    + intros y Hy. apply Hpre. by right.
Qed.

Section failures.
Context `{ContainerStr}.

(** X7.  A root logger the inspector fails on makes the root report fail right
    after its title: no field of the root is printed, and an exception of
    the inspector is the exception of the report. *)
Theorem show_root_logger_failure (fuel : nat) (σ : logging.state) :
  logger_inspectable fuel σ (logging.root σ) = false →
  ∃ failure, (∀ a, failure ≠ Ret a) ∧
    (∀ e, get_logger_info fuel σ (logging.root σ) = Raise e → failure = Raise e) ∧
    show_root_logger fuel σ = IO [ "🌟 ROOT LOGGER"; str_repeat "=" 50 ] failure.
Proof.
  intros Hbad. unfold show_root_logger. rewrite !io_bind_print.
  destruct (get_logger_info fuel σ (logging.root σ)) as [info| |] eqn:Hinfo.
  - apply get_logger_info_inspectable in Hinfo. congruence.
  - exists (Raise e). split; [done|]. split; [|done]. by intros ? [= ->].
  - exists OutOfFuel. by split.
Qed.

Lemma show_logger_entry_failure fuel σ name l :
  logger_inspectable fuel σ l = false →
  ∃ failure, (∀ a, failure ≠ Ret a) ∧ show_logger_entry fuel σ name l = IO [] failure.
Proof.
  intros Hbad. unfold show_logger_entry.
  destruct (get_logger_info fuel σ l) as [info| |] eqn:Hinfo.
  - apply get_logger_info_inspectable in Hinfo. congruence.
  - exists (Raise e). by split.
  - exists OutOfFuel. by split.
Qed.

(** X8.  The all-loggers report stops at the first real logger, in name order,
    that the inspector fails on: the entries before it are reported in
    full, nothing is printed for it or after it, and the report fails. *)
Theorem show_all_loggers_first_failure (fuel : nat) (σ : logging.state)
    pre name l post :
  sorted_items (logging.loggerDict σ) = pre ++ (name, logging.ALogger l) :: post →
  forallb (λ entry : string * logging.registered,
             match entry.2 with
             | logging.ALogger l' => logger_inspectable fuel σ l'
             | logging.PlaceHolder => true
             end) pre = true →
  logger_inspectable fuel σ l = false →
  ∃ failure, (∀ a, failure ≠ Ret a) ∧
    show_all_loggers fuel σ =
      IO ([ "📚 ALL LOGGERS"; str_repeat "=" 50;
            "Total loggers: "
              +:+ pretty (Z.of_nat (length (logging.loggerDict σ))); "" ]
          ++ concat (map (entry_report fuel σ) pre)) failure.
Proof.
  intros Hsorted Hpre Hbad.
  destruct (show_logger_entry_failure fuel σ name l Hbad) as (failure & Hne & Hentry).
  exists failure. split; [done|].
  unfold show_all_loggers.
  assert (length (sorted_items (logging.loggerDict σ)) = length (logging.loggerDict σ))
    as Hlen by (unfold sorted_items; by rewrite sorted_perm).
  destruct (logging.loggerDict σ) as [|entry rest] eqn:Hdict.
  { by destruct pre. }
  cbv zeta iota. rewrite Hlen, Hsorted, !io_bind_print.
  rewrite (for_each_first_failure pre _ post _ (entry_report fuel σ) [] failure).
  - simpl. by rewrite app_nil_r.
  - intros [n [|l']] Hin; unfold entry_report; simpl.
    + apply returns_print.
    + apply show_logger_entry_returns.
      rewrite forallb_forall in Hpre.
      apply (Hpre (n, logging.ALogger l')). by apply list_elem_of_In.
  - exact Hentry.
  - exact Hne.
Qed.
End failures.

Lemma show_root_logger_failure_witness :
  logger_inspectable 2 broken_root (logging.root broken_root) = false ∧
  show_root_logger 2 broken_root =
    IO [ "🌟 ROOT LOGGER"; str_repeat "=" 50 ] (Raise (AttributeError "level")).
Proof.
  split; [reflexivity|].
  destruct (show_root_logger_failure 2 broken_root eq_refl)
    as (failure & _ & Hraise & ->).
  f_equal. apply Hraise. reflexivity.
Defined.

Lemma show_all_loggers_first_failure_witness :
  ∃ failure, (∀ a, failure ≠ Ret a) ∧
    show_all_loggers 2 broken =
      IO ([ "📚 ALL LOGGERS"; str_repeat "=" 50;
            "Total loggers: "
              +:+ pretty (Z.of_nat (length (logging.loggerDict broken))); "" ]
          ++ concat (map (entry_report 2 broken) [("a", logging.PlaceHolder)])) failure.
Proof.
  apply (show_all_loggers_first_failure 2 broken
           [("a", logging.PlaceHolder)] "b" 1%nat []); vm_compute; reflexivity.
Defined.

(** ** The hierarchy report: what it depends on *)

Lemma registered_refs_spec σ c : c ∈ registered_refs σ ↔ registered σ c.
Proof.
  unfold registered_refs, registered. rewrite list_elem_of_omap. split.
  - intros ([name [|c']] & Hin & Heq); simplify_eq/=. by exists name.
  - intros [name Hin]. by exists (name, logging.ALogger c).
Qed.

Lemma registered_refs_length σ :
  (length (registered_refs σ) ≤ length (logging.loggerDict σ))%nat.
Proof.
  unfold registered_refs. induction (logging.loggerDict σ) as [|[name [|c]] dict IH];
    cbn [omap list_omap snd length] in *; lia.
Qed.

Lemma getEffectiveLevel_no_raise fuel σ logger e :
  logging.getEffectiveLevel fuel σ logger ≠ Raise e.
Proof.
  revert logger. induction fuel as [|fuel IH]; intros [l|]; simpl; try done.
  destruct (negb _); [done|apply IH].
Qed.

Lemma for_each_result_cases {A} (xs : list A) (body : A → io unit) bad :
  (∀ x, x ∈ xs → result (body x) = Ret tt ∨ result (body x) = bad) →
  result (for_each xs body) = Ret tt ∨ result (for_each xs body) = bad.
Proof.
  induction xs as [|x xs IH]; intros Hall; simpl; [by left|].
  unfold mbind, io_bind.
  destruct (Hall x ltac:(by left)) as [-> | Hx].
  - simpl. apply IH. intros y Hy. apply Hall. by right.
  - rewrite Hx. destruct bad as [[]| |]; simpl; [|by right..].
    apply IH. intros y Hy. apply Hall. by right.
Qed.

Lemma print_logger_tree_result fuel σ logger indent :
  result (print_logger_tree fuel σ logger indent) = Ret tt ∨
  result (print_logger_tree fuel σ logger indent) = OutOfFuel.
Proof.
  revert logger indent. induction fuel as [|fuel IH]; intros logger indent;
    [by right|].
  rewrite print_logger_tree_unfold.
  destruct (logging.getEffectiveLevel (S fuel) σ (Some logger)) as [eff|e|] eqn:Heff.
  - rewrite io_bind_lift_Ret, io_bind_print. cbn [result].
    apply for_each_result_cases. intros c _. apply IH.
  - by apply getEffectiveLevel_no_raise in Heff.
  - by right.
Qed.

Lemma sorted_ext {A} (lt lt' : A → A → bool) (xs : list A) :
  (∀ x y, lt x y = lt' x y) → sorted lt xs = sorted lt' xs.
Proof.
  intros Heq. induction xs as [|x xs IH]; simpl; [done|]. rewrite IH.
  generalize (sorted lt' xs) as l. induction l as [|y l IHl]; simpl; [done|].
  by rewrite Heq, IHl.
Qed.




(** *** Termination needs the root's chain only *)

(** A node reached from the root through [seen] is printed once the fuel,
    added to the depth, covers the root's chain and twice the registry. *)
Lemma print_logger_tree_below_root σ n0 :
  ∀ fuel logger seen n indent,
    parent_chain σ logger n → n = (n0 + length seen)%nat → NoDup seen →
    (∀ x, x ∈ seen → registered σ x ∧ ∃ m, (m ≤ n)%nat ∧ parent_chain σ x m) →
    (n0 + 2 * length (logging.loggerDict σ) + 1 ≤ fuel + length seen)%nat →
    result (print_logger_tree fuel σ logger indent) = Ret tt.
Proof.
  induction fuel as [|fuel IH]; intros logger seen n indent Hn -> Hnodup Hseen Hfuel.
  all: assert (length seen ≤ length (logging.loggerDict σ))%nat as Hdepth.
  1,3: etrans; [|apply registered_refs_length];
       apply submseteq_length, NoDup_submseteq; [done|];
       intros x Hx; apply registered_refs_spec; by apply Hseen.
  { lia. }
  rewrite print_logger_tree_unfold.
  destruct (getEffectiveLevel_chain σ logger _ (S fuel) Hn) as [eff ->]; [lia|].
  rewrite io_bind_lift_Ret, io_bind_print. cbn [result].
  apply for_each_result. intros c [Hreg Hparent]%sorted_children_spec.
  assert (parent_chain σ c (S (n0 + length seen))) as Hc by (by econstructor).
  apply (IH c (c :: seen) (S (n0 + length seen))).
  - done.
  - simpl. lia.
  - apply NoDup_cons. split; [|done]. intros Hin.
    destruct (Hseen c Hin) as (_ & m & Hm & Hchain).
    pose proof (parent_chain_functional _ _ _ _ Hc Hchain). lia.
  - intros x [->|Hx]%elem_of_cons.
    + split; [done|]. by exists (S (n0 + length seen)).
    + destruct (Hseen x Hx) as (? & m & ? & ?). split; [done|].
      exists m. split; [lia|done].
  - simpl. lia.
Qed.

(** X10.  When the parent links from the root end, the hierarchy report returns,
    with the same output for every amount of fuel from the length of the
    root's chain plus twice the size of the registry plus one on: cycles
    among loggers that are not below the root do no harm. *)
Theorem hierarchy_report_needs_root_chain
    (σ : logging.state) (n : nat) :
  parent_chain σ (logging.root σ) n →
  ∃ out, ∀ fuel, (n + 2 * length (logging.loggerDict σ) + 1 ≤ fuel)%nat →
    show_logger_hierarchy fuel σ = IO out (Ret tt).
Proof.
  intros Hroot.
  set (fuel0 := (n + 2 * length (logging.loggerDict σ) + 1)%nat).
  assert (result (print_logger_tree fuel0 σ (logging.root σ) 0) = Ret tt) as Hres.
  { apply (print_logger_tree_below_root σ n fuel0 (logging.root σ) [] n);
      [done|simpl; lia|constructor|by intros x ?%elem_of_nil|simpl; lia]. }
  exists (["🌳 LOGGER HIERARCHY"; str_repeat "=" 50]
            ++ printed (print_logger_tree fuel0 σ (logging.root σ) 0) ++ [""]).
  intros fuel Hfuel. unfold show_logger_hierarchy.
  rewrite (print_logger_tree_mono_le _ _ _ _ _ Hfuel Hres).
  destruct (print_logger_tree fuel0 σ (logging.root σ) 0) as [out res].
  simpl in Hres. subst res. reflexivity.
Qed.

Lemma hierarchy_report_needs_root_chain_witness :
  ∃ out, ∀ fuel,
    (0 + 2 * length (logging.loggerDict detached_cycle) + 1 ≤ fuel)%nat →
    show_logger_hierarchy fuel detached_cycle = IO out (Ret tt).
Proof.
  apply (hierarchy_report_needs_root_chain detached_cycle 0).
  apply chain_end. reflexivity.
Defined.

(** *** A cycle through the root *)

Lemma print_logger_tree_on_cycle σ (cycle : list logging.ref) :
  (∀ l, l ∈ cycle →
        ∃ c, c ∈ cycle ∧ registered σ c ∧
             logging.parent (logging.store σ c) = Some l) →
  ∀ fuel l indent, l ∈ cycle →
    result (print_logger_tree fuel σ l indent) = OutOfFuel.
Proof.
  intros Hcycle. induction fuel as [|fuel IH]; intros l indent Hl; [done|].
  destruct (print_logger_tree_result (S fuel) σ l indent) as [Hret|]; [|done].
  exfalso. revert Hret. rewrite print_logger_tree_unfold.
  destruct (logging.getEffectiveLevel (S fuel) σ (Some l)) as [eff| |]; [|done..].
  rewrite io_bind_lift_Ret, io_bind_print. cbn [result]. intros Hret.
  destruct (Hcycle l Hl) as (c & Hc & Hreg & Hparent).
  assert (c ∈ sorted_children σ l) as Hchild by (by apply sorted_children_spec).
  pose proof (proj1 (for_each_result _ _) Hret c Hchild) as Hcret.
  cbv beta in Hcret. rewrite (IH c (S indent) Hc) in Hcret. done.
Qed.

(** X11.  When the root lies on a cycle of loggers each of which is registered
    and is the parent of the next, the hierarchy report does not return:
    whatever the fuel, the walk is still descending when it runs out, and
    the closing blank line is never reached. *)
Theorem hierarchy_report_cycle_through_root
    (σ : logging.state) (cycle : list logging.ref) :
  logging.root σ ∈ cycle →
  (∀ l, l ∈ cycle →
        ∃ c, c ∈ cycle ∧ registered σ c ∧
             logging.parent (logging.store σ c) = Some l) →
  ∀ fuel, result (show_logger_hierarchy fuel σ) = OutOfFuel.
Proof.
  intros Hroot Hcycle fuel. unfold show_logger_hierarchy.
  rewrite !io_bind_print. cbn [result]. unfold mbind, io_bind.
  by rewrite (print_logger_tree_on_cycle σ cycle Hcycle fuel _ 0%nat Hroot).
Qed.

Lemma hierarchy_report_cycle_through_root_witness :
  logging.root looped ∈ [0%nat; 1%nat] ∧
  ∀ fuel, result (show_logger_hierarchy fuel looped) = OutOfFuel.
Proof.
  split; [apply list_elem_of_here|].
  apply (hierarchy_report_cycle_through_root looped [0%nat; 1%nat]).
  - apply list_elem_of_here.
  - intros l Hl.
    apply elem_of_cons in Hl as [->|Hl]; [|apply list_elem_of_singleton in Hl as ->].
    + exists 1%nat. split; [apply list_elem_of_further, list_elem_of_here|].
      split; [|reflexivity]. exists "x". apply list_elem_of_here.
    + exists 0%nat. split; [apply list_elem_of_here|].
      split; [|reflexivity]. exists "again".
      apply list_elem_of_further, list_elem_of_here.
Defined.

(** ** Sequencing of reports *)




(** ** How the handler summary fails *)




(** ** The former entry point *)









Section former_entry_point.
Context `{ContainerStr}.






End former_entry_point.




Section former_entry_point_report.
Context `{ContainerStr}.

End former_entry_point_report.

